(** * DOSTerminal: the line-editing console of src/components/DOSTerminal.ts

    A shallow embedding of the [DOSTerminal] class: the key-event handler
    installed by [setupInput], the line buffer and recall history it mutates,
    and the command dispatcher [executeCommand] with its handlers.

    - JavaScript strings are sequences of UTF-16 code units ([jsstring]).
    - The xterm display is an opaque sink: the embedding records the
      sequence of [write] / [writeln] / [clear] calls made on it.
    - The mutable fields of the class are the fields of the record
      [DOSTerminal]; every method is a function on that record. *)

From Stdlib Require Import ZArith List String Ascii Bool Lia DecimalString.
Import ListNotations.
Local Open Scope Z_scope.

(** ** JavaScript strings *)

(** A string value: its UTF-16 code units, in order. *)
Definition jsstring : Type := list Z.

(** An ASCII literal of the source, as code units. *)
Definition js (s : string) : jsstring :=
  map (fun a => Z.of_N (N_of_ascii a)) (list_ascii_of_string s).
Arguments js s%_string.

(** A literal that starts with the escape character, written [\x1b...]. *)
Definition esc (s : string) : jsstring := 27 :: js s.
Arguments esc s%_string.

(** [a === b] on strings. *)
Fixpoint str_eqb (a b : jsstring) : bool :=
  match a, b with
  | [], [] => true
  | x :: a', y :: b' => (x =? y) && str_eqb a' b'
  | _, _ => false
  end.

(** [a < b] on strings: code units compared lexicographically, a proper
    prefix being smaller. *)
Fixpoint str_ltb (a b : jsstring) : bool :=
  match a, b with
  | _, [] => false
  | [], _ :: _ => true
  | x :: a', y :: b' => (x <? y) || ((x =? y) && str_ltb a' b')
  end.

(** [a >= b] on strings. *)
Definition str_geb (a b : jsstring) : bool := negb (str_ltb a b).

(** The code units that [String.prototype.trim] strips and that the regular
    expression class [\s] matches: WhiteSpace and LineTerminator. *)
Definition is_ws (c : Z) : bool :=
  ((9 <=? c) && (c <=? 13))
  || (c =? 32) || (c =? 160) || (c =? 5760)
  || ((8192 <=? c) && (c <=? 8202))
  || (c =? 8232) || (c =? 8233) || (c =? 8239) || (c =? 8287)
  || (c =? 12288) || (c =? 65279).

Fixpoint trimStart (s : jsstring) : jsstring :=
  match s with
  | [] => []
  | c :: r => if is_ws c then trimStart r else s
  end.

Definition trimEnd (s : jsstring) : jsstring := rev (trimStart (rev s)).

(** [s.trim()] *)
Definition trim (s : jsstring) : jsstring := trimEnd (trimStart s).

(** [s.split(/\s+/)].  [cur] holds, reversed, the token being read, and
    [in_ws] tells that the previous code unit belonged to a separator.  A
    separator is a maximal run of white space; one at the start or at the end
    of [s] yields an empty first or last token, and the result is never the
    empty array. *)
Fixpoint split_ws_from (in_ws : bool) (cur : jsstring) (s : jsstring)
  : list jsstring :=
  match s with
  | [] => [rev cur]
  | c :: r =>
      if is_ws c then
        if in_ws then split_ws_from true cur r
        else rev cur :: split_ws_from true [] r
      else split_ws_from false (c :: cur) r
  end.

Definition split_ws (s : jsstring) : list jsstring := split_ws_from false [] s.

(** [s.split(sep)] for a separator of one code unit. *)
Fixpoint split_unit_from (sep : Z) (cur : jsstring) (s : jsstring)
  : list jsstring :=
  match s with
  | [] => [rev cur]
  | c :: r =>
      if c =? sep then rev cur :: split_unit_from sep [] r
      else split_unit_from sep (c :: cur) r
  end.

Definition split_unit (sep : Z) (s : jsstring) : list jsstring :=
  split_unit_from sep [] s.

(** [l.join(sep)] *)
Fixpoint join (sep : jsstring) (l : list jsstring) : jsstring :=
  match l with
  | [] => []
  | [x] => x
  | x :: r => x ++ sep ++ join sep r
  end.

(** The decimal text of an array length, as a template literal prints it. *)
Definition number_toString (n : nat) : jsstring :=
  js (NilZero.string_of_uint (Nat.to_uint n)).

(** ** The content store *)

Record DOSPost : Type := mkDOSPost {
  id : jsstring;
  title : jsstring;
  date : jsstring;
  content : jsstring;
  tags : list jsstring
}.

(** The three entries of the source's [dosPosts]; the bodies are the
    template literals of the source, line breaks included. *)
Definition dosPosts : list DOSPost :=
  [ mkDOSPost (js "1") (js "Welcome to DOS Terminal") (js "2026-02-09")
      (js "Welcome to my DOS-style terminal space!

This is a retro-inspired interface built with xterm.js.
You can navigate using classic DOS commands.

Available commands:
- HELP    - Show available commands
- LIST    - List all entries
- READ <id> - Read a specific entry
- CLEAR   - Clear the terminal
- ABOUT   - About this terminal
- EXIT    - Exit (just refresh the page)

Enjoy your stay in the terminal!")
      [js "welcome"; js "intro"];
    mkDOSPost (js "2") (js "Building a DOS Terminal") (js "2026-02-09")
      (js "I've always been fascinated by retro computing and terminal interfaces.
There's something beautiful about the simplicity and directness of command-line interfaces.

This experience is built using:
- xterm.js for the terminal emulator
- TypeScript for type safety
- Astro for the framework

The DOS aesthetic brings back memories of simpler times when computing was more direct and less cluttered.")
      [js "tech"; js "retro"; js "xterm"];
    mkDOSPost (js "3") (js "The Art of Minimalism") (js "2026-02-08")
      (js "Minimalism in design isn't about removing everything.
It's about keeping only what's essential.

In terminal interfaces, every character matters.
Every command serves a purpose.
There's no room for unnecessary decoration.

This philosophy extends beyond code to life itself.")
      [js "philosophy"; js "design"; js "minimalism"] ].

(** ** The display sink and the console state *)

(** One call on the xterm [Terminal] object. *)
Inductive TermOp : Type :=
| Write (s : jsstring)
| Writeln (s : jsstring)
| Clear.

(** Ghost record of two kinds of internal calls, kept only so that
    statements such as "the dispatcher is not invoked" can be written down:
    it is not a field of the class and no method reads it. *)
Inductive Call : Type :=
| CallExecute (command : jsstring)
| CallFind (ident : jsstring).

(** The fields of the class.  [terminal] is the list of calls received by
    the display so far, oldest first. *)
Record DOSTerminal : Type := mkDOSTerminal {
  terminal : list TermOp;
  currentLine : jsstring;
  commandHistory : list jsstring;
  historyIndex : Z;
  calls : list Call
}.

Definition write (s : jsstring) (t : DOSTerminal) : DOSTerminal :=
  mkDOSTerminal (terminal t ++ [Write s]) (currentLine t) (commandHistory t)
    (historyIndex t) (calls t).

Definition writeln (s : jsstring) (t : DOSTerminal) : DOSTerminal :=
  mkDOSTerminal (terminal t ++ [Writeln s]) (currentLine t) (commandHistory t)
    (historyIndex t) (calls t).

Definition clear (t : DOSTerminal) : DOSTerminal :=
  mkDOSTerminal (terminal t ++ [Clear]) (currentLine t) (commandHistory t)
    (historyIndex t) (calls t).

Definition set_currentLine (l : jsstring) (t : DOSTerminal) : DOSTerminal :=
  mkDOSTerminal (terminal t) l (commandHistory t) (historyIndex t) (calls t).

Definition set_historyIndex (i : Z) (t : DOSTerminal) : DOSTerminal :=
  mkDOSTerminal (terminal t) (currentLine t) (commandHistory t) i (calls t).

(** [this.commandHistory.push(l)] *)
Definition push_commandHistory (l : jsstring) (t : DOSTerminal) : DOSTerminal :=
  mkDOSTerminal (terminal t) (currentLine t) (commandHistory t ++ [l])
    (historyIndex t) (calls t).

Definition log_call (c : Call) (t : DOSTerminal) : DOSTerminal :=
  mkDOSTerminal (terminal t) (currentLine t) (commandHistory t)
    (historyIndex t) (calls t ++ [c]).

(** [h[i]]: [None] stands for [undefined], the value of a read at a
    negative index or at one not below [h.length]. *)
Definition history_at (h : list jsstring) (i : Z) : option jsstring :=
  if i <? 0 then None else nth_error h (Z.to_nat i).

(** [this.commandHistory.length] *)
Definition history_length (t : DOSTerminal) : Z :=
  Z.of_nat (List.length (commandHistory t)).

(** A run of [this.terminal.writeln(...)] statements, first to last. *)
Definition writelns (ls : list jsstring) (t : DOSTerminal) : DOSTerminal :=
  fold_left (fun t' l => writeln l t') ls t.

(** The two rules drawn by the handlers: 59 times [U+2550], 59 times
    [U+2500], in yellow. *)
Definition double_rule : jsstring := esc "[33m" ++ repeat 9552 59%nat ++ esc "[0m".
Definition single_rule : jsstring := esc "[33m" ++ repeat 9472 59%nat ++ esc "[0m".

(** ** Methods that do not depend on the content store *)

Definition printWelcome (t : DOSTerminal) : DOSTerminal :=
  writelns
    [ esc "[32m" ++ [9556] ++ repeat 9552 59%nat ++ [9559] ++ esc "[0m";
      esc "[32m" ++ [9553] ++ js "                                                           " ++ [9553] ++ esc "[0m";
      esc "[32m" ++ [9553] ++ js "                DOS TERMINAL INTERFACE v1.0                " ++ [9553] ++ esc "[0m";
      esc "[32m" ++ [9553] ++ js "                                                           " ++ [9553] ++ esc "[0m";
      esc "[32m" ++ [9562] ++ repeat 9552 59%nat ++ [9565] ++ esc "[0m";
      [];
      esc "[33mType HELP for available commands." ++ esc "[0m";
      [] ] t.

Definition prompt : jsstring := esc "[32mC:\DOS>" ++ esc "[0m ".

Definition printPrompt (t : DOSTerminal) : DOSTerminal := write prompt t.

(** The erase sequence [\b \b]: back, blank, back. *)
Definition erase : jsstring := [8; 32; 8].

Definition handleBackspace (t : DOSTerminal) : DOSTerminal :=
  if (0 <? Z.of_nat (List.length (currentLine t))) then
    let t := set_currentLine (removelast (currentLine t)) t in
    write erase t
  else t.

(** The loop [for (let i = 0; i < length; i++) write('\b \b')]. *)
Definition clearCurrentLine (t : DOSTerminal) : DOSTerminal :=
  let length := List.length (currentLine t) in
  Nat.iter length (write erase) t.

(** In [handleArrowUp] and [handleArrowDown] the result is [None] exactly
    when [this.commandHistory[this.historyIndex]] is read out of bounds,
    which would store [undefined] in the line buffer. *)
Definition handleArrowUp (t : DOSTerminal) : option DOSTerminal :=
  if historyIndex t >? 0 then
    let t := set_historyIndex (historyIndex t - 1) t in
    let t := clearCurrentLine t in
    match history_at (commandHistory t) (historyIndex t) with
    | Some entry =>
        let t := set_currentLine entry t in
        Some (write (currentLine t) t)
    | None => None
    end
  else Some t.

Definition handleArrowDown (t : DOSTerminal) : option DOSTerminal :=
  if historyIndex t <? history_length t - 1 then
    let t := set_historyIndex (historyIndex t + 1) t in
    let t := clearCurrentLine t in
    match history_at (commandHistory t) (historyIndex t) with
    | Some entry =>
        let t := set_currentLine entry t in
        Some (write (currentLine t) t)
    | None => None
    end
  else
    let t := set_historyIndex (history_length t) t in
    let t := clearCurrentLine t in
    Some (set_currentLine [] t).

Definition showHelp (t : DOSTerminal) : DOSTerminal :=
  writelns
    [ [];
      double_rule;
      esc "[33m                    AVAILABLE COMMANDS" ++ esc "[0m";
      double_rule;
      [];
      js "  " ++ esc "[32mHELP" ++ esc "[0m     - Display this help message";
      js "  " ++ esc "[32mLIST" ++ esc "[0m     - List all entries";
      js "  " ++ esc "[32mREAD <id>" ++ esc "[0m - Read a specific entry";
      js "  " ++ esc "[32mCLEAR" ++ esc "[0m    - Clear the terminal screen";
      js "  " ++ esc "[32mABOUT" ++ esc "[0m    - Show information about this terminal";
      js "  " ++ esc "[32mEXIT" ++ esc "[0m     - Exit (refresh page)";
      [] ] t.

Definition clearTerminal (t : DOSTerminal) : DOSTerminal :=
  let t := clear t in
  printWelcome t.

Definition showAbout (t : DOSTerminal) : DOSTerminal :=
  writelns
    [ [];
      double_rule;
      esc "[33m                         ABOUT" ++ esc "[0m";
      double_rule;
      [];
      js "  A retro-inspired DOS terminal experience built with:";
      js "  - xterm.js terminal emulator";
      js "  - TypeScript";
      js "  - Astro framework";
      [];
      js "  Experience the nostalgia of DOS-era computing";
      js "  with a modern twist.";
      [];
      js "  Type HELP for available commands.";
      [] ] t.

(** The state built by the field initialisers, before [init] runs. *)
Definition new_terminal : DOSTerminal := mkDOSTerminal [] [] [] (-1) [].

(** The state after the constructor: [init] prints the banner and the
    prompt, then registers [onData]. *)
Definition init : DOSTerminal := printPrompt (printWelcome new_terminal).

(** The key events of the arrow keys, as xterm delivers them. *)
Definition arrow_up : jsstring := esc "[A".
Definition arrow_down : jsstring := esc "[B".

(** The labels of the [switch] in [executeCommand], the empty one included. *)
Definition known_verbs : list jsstring :=
  [ js "HELP"; js "?"; js "LIST"; js "DIR"; js "READ"; js "CLEAR"; js "CLS";
    js "ABOUT"; js "EXIT"; js "QUIT"; [] ].

(** The first code unit of an event is at or above the space character. *)
Definition printable_event (data : jsstring) : bool :=
  match data with
  | [] => false
  | code :: _ => 32 <=? code
  end.

(** The first code unit of an event is one that [onData] treats as a control
    key: carriage return, delete, backspace or escape. *)
Definition control_event (data : jsstring) : bool :=
  match data with
  | [] => false
  | code :: _ => (code =? 13) || (code =? 127) || (code =? 8) || (code =? 27)
  end.

(** [toUpperCase] on strings of ASCII code units, where it is the map of
    [a-z] to [A-Z]; used to run the console on concrete ASCII input. *)
Definition toUpperCase_ascii (s : jsstring) : jsstring :=
  map (fun c => if (97 <=? c) && (c <=? 122) then c - 32 else c) s.

(** A method that only talks to the display and to the ghost log: it leaves
    the line buffer, the history and the cursor alone, and what it sends does
    not depend on the state it is called in. *)
Definition effect_only (f : DOSTerminal -> DOSTerminal) : Prop :=
  forall t,
    f t = mkDOSTerminal (terminal t ++ terminal (f new_terminal))
            (currentLine t) (commandHistory t) (historyIndex t)
            (calls t ++ calls (f new_terminal)).

(** ** The console over a content store

    The methods below read the content store and upper-case the submitted
    line.  The store is a parameter, instantiated with [dosPosts] at the end;
    [String.prototype.toUpperCase], a Unicode table of the language, is a
    parameter too. *)
Section Console.

Variable posts : list DOSPost.
Variable toUpperCase : jsstring -> jsstring.

(** The one fact about [String.prototype.toUpperCase] that the console
    relies on: upper-casing neither empties a string nor fills an empty one. *)
Hypothesis toUpperCase_empty : forall s, toUpperCase s = [] <-> s = [].

(** [dosPosts.find(p => p.id === id)] *)
Definition find_post (ident : jsstring) : option DOSPost :=
  find (fun p => str_eqb (id p) ident) posts.

Definition listEntries (t : DOSTerminal) : DOSTerminal :=
  let t := writelns
    [ [];
      double_rule;
      esc "[33m                        ENTRIES" ++ esc "[0m";
      double_rule;
      [] ] t in
  let t := fold_left (fun t' entry =>
      let id_ := esc "[32m[" ++ id entry ++ js "]" ++ esc "[0m" in
      let title_ := esc "[36m" ++ title entry ++ esc "[0m" in
      let date_ := esc "[33m" ++ date entry ++ esc "[0m" in
      let tags_ :=
        join (js " ") (map (fun tg => esc "[35m#" ++ tg ++ esc "[0m") (tags entry)) in
      writelns
        [ js "  " ++ id_ ++ js " " ++ title_;
          js "      Date: " ++ date_ ++ js "  Tags: " ++ tags_;
          [] ] t') posts t in
  writelns
    [ js "Total: " ++ number_toString (List.length posts) ++ js " entr(y/ies)";
      [] ] t.

(** The lines written by [readEntry] for an entry that was found. *)
Definition entry_view (entry : DOSPost) : list jsstring :=
  [ [];
    double_rule;
    esc "[36m" ++ title entry ++ esc "[0m";
    double_rule;
    [];
    esc "[33mDate:" ++ esc "[0m " ++ date entry;
    esc "[33mTags:" ++ esc "[0m "
      ++ join (js " ") (map (fun tg => js "#" ++ tg) (tags entry));
    [];
    single_rule;
    [] ]
  ++ map (fun line => js "  " ++ line) (split_unit 10 (content entry))
  ++ [ []; single_rule; [] ].

Definition readEntry (ident : jsstring) (t : DOSTerminal) : DOSTerminal :=
  let t := log_call (CallFind ident) t in
  match find_post ident with
  | None =>
      writelns
        [ esc "[31mEntry not found: " ++ ident ++ esc "[0m";
          js "Use LIST to see available entries." ] t
  | Some entry =>
      let t := writelns
        [ [];
          double_rule;
          esc "[36m" ++ title entry ++ esc "[0m";
          double_rule;
          [];
          esc "[33mDate:" ++ esc "[0m " ++ date entry;
          esc "[33mTags:" ++ esc "[0m "
            ++ join (js " ") (map (fun tg => js "#" ++ tg) (tags entry));
          [];
          single_rule;
          [] ] t in
      let lines := split_unit 10 (content entry) in
      let t := fold_left (fun t' line => writeln (js "  " ++ line) t') lines t in
      writelns [ []; single_rule; [] ] t
  end.

(** The [switch (cmd)] of the dispatcher.  [parts] always has a first
    element (see [split_ws_from]); the arm for the empty array is only there
    to make the match total. *)
Definition executeCommand (command : jsstring) (t : DOSTerminal) : DOSTerminal :=
  let t := log_call (CallExecute command) t in
  let parts := split_ws command in
  match parts with
  | [] => t
  | cmd :: args =>
      if str_eqb cmd (js "HELP") || str_eqb cmd (js "?") then showHelp t
      else if str_eqb cmd (js "LIST") || str_eqb cmd (js "DIR") then listEntries t
      else if str_eqb cmd (js "READ") then
        match args with
        | arg0 :: _ => readEntry arg0 t
        | [] =>
            writelns
              [ esc "[31mError: Please specify an entry ID." ++ esc "[0m";
                js "Usage: READ <id>" ] t
        end
      else if str_eqb cmd (js "CLEAR") || str_eqb cmd (js "CLS") then clearTerminal t
      else if str_eqb cmd (js "ABOUT") then showAbout t
      else if str_eqb cmd (js "EXIT") || str_eqb cmd (js "QUIT") then
        writeln (esc "[33mTo exit, please refresh the page." ++ esc "[0m") t
      else if str_eqb cmd [] then t
      else
        writelns
          [ esc "[31mBad command or file name: " ++ cmd ++ esc "[0m";
            js "Type HELP for available commands." ] t
  end.

(** What one dispatch sends to the display, and the calls it makes. *)
Definition command_output (command : jsstring) : list TermOp :=
  terminal (executeCommand command new_terminal).

Definition command_calls (command : jsstring) : list Call :=
  calls (executeCommand command new_terminal).

(** [if (command)]: a string is truthy when it is not empty. *)
Definition truthy (s : jsstring) : bool :=
  match s with [] => false | _ :: _ => true end.

Definition handleEnter (t : DOSTerminal) : DOSTerminal :=
  let t := writeln [] t in
  let command := toUpperCase (trim (currentLine t)) in
  let t :=
    if truthy command then
      let t := push_commandHistory (trim (currentLine t)) t in
      let t := set_historyIndex (history_length t) t in
      executeCommand command t
    else t in
  let t := set_currentLine [] t in
  printPrompt t.

(** The callback registered with [this.terminal.onData].  For an empty
    [data], [charCodeAt(0)] is [NaN] and [data >= ' '] is false: no branch is
    taken. *)
Definition onData (data : jsstring) (t : DOSTerminal) : option DOSTerminal :=
  match data with
  | [] => Some t
  | code :: _ =>
      if code =? 13 then Some (handleEnter t)
      else if (code =? 127) || (code =? 8) then Some (handleBackspace t)
      else if code =? 27 then
        let rest := tl data in
        if str_eqb rest (js "[A") then handleArrowUp t
        else if str_eqb rest (js "[B") then handleArrowDown t
        else Some t
      else if str_geb data (js " ") then
        let t := set_currentLine (currentLine t ++ data) t in
        Some (write data t)
      else Some t
  end.

(** A sequence of [onData] events, handled one after the other. *)
Fixpoint run (events : list jsstring) (t : DOSTerminal) : option DOSTerminal :=
  match events with
  | [] => Some t
  | data :: rest =>
      match onData data t with
      | Some t' => run rest t'
      | None => None
      end
  end.

(** The states the console can be in. *)
Inductive reachable : DOSTerminal -> Prop :=
| reachable_init : reachable init
| reachable_event : forall t data t',
    reachable t -> onData data t = Some t' -> reachable t'.

(** The history cursor as the code keeps it: [-1] until the history is first
    touched, then within [0 .. length]. *)
Definition cursor_ok (t : DOSTerminal) : Prop :=
  (historyIndex t = -1 /\ commandHistory t = [])
  \/ 0 <= historyIndex t <= history_length t.


(** The three lines that [listEntries] writes for one entry. *)
Definition entry_summary (entry : DOSPost) : list jsstring :=
  [ js "  " ++ (esc "[32m[" ++ id entry ++ js "]" ++ esc "[0m") ++ js " "
      ++ (esc "[36m" ++ title entry ++ esc "[0m");
    js "      Date: " ++ (esc "[33m" ++ date entry ++ esc "[0m") ++ js "  Tags: "
      ++ join (js " ") (map (fun tg => esc "[35m#" ++ tg ++ esc "[0m") (tags entry));
    [] ].

(** A code unit that is a lower-case ASCII letter. *)
Definition is_lower (c : Z) : bool := (97 <=? c) && (c <=? 122).

(** ** Strings *)

Lemma str_eqb_eq : forall a b, str_eqb a b = true <-> a = b.
Proof.
  induction a as [|x a IH]; destruct b as [|y b]; simpl; split; intro H;
    try reflexivity; try discriminate.
  - apply andb_true_iff in H. destruct H as [Hxy Hab].
    apply Z.eqb_eq in Hxy. apply IH in Hab. congruence.
  - injection H as -> ->. rewrite Z.eqb_refl. simpl. apply IH. reflexivity.
Qed.

Lemma str_eqb_refl : forall a, str_eqb a a = true.
Proof. intro a. apply str_eqb_eq. reflexivity. Qed.

Lemma str_eqb_neq : forall a b, a <> b -> str_eqb a b = false.
Proof.
  intros a b H. destruct (str_eqb a b) eqn:E; [|reflexivity].
  apply str_eqb_eq in E. contradiction.
Qed.

(** [data >= ' '] only looks at the first code unit. *)
Lemma str_geb_space : forall code rest,
  str_geb (code :: rest) (js " ") = (32 <=? code).
Proof.
  intros code rest. unfold str_geb. simpl.
  destruct rest; simpl; rewrite ?andb_false_r, ?orb_false_r;
    rewrite Z.leb_antisym; reflexivity.
Qed.

Lemma split_ws_from_nonempty : forall s in_ws cur, split_ws_from in_ws cur s <> [].
Proof.
  induction s as [|c r IH]; intros in_ws cur; simpl; [discriminate|].
  destruct (is_ws c); [destruct in_ws|]; try apply IH; discriminate.
Qed.

(** Joining the lines of [s.split('\n')] with line feeds gives [s] back: the
    lines are the body, nothing dropped and nothing moved. *)
Lemma split_unit_from_join : forall sep s cur,
  join [sep] (split_unit_from sep cur s) = rev cur ++ s.
Proof.
  induction s as [|c r IH]; intro cur; simpl.
  - rewrite app_nil_r. reflexivity.
  - destruct (c =? sep) eqn:E.
    + apply Z.eqb_eq in E. subst c.
      specialize (IH []). simpl in IH.
      destruct (split_unit_from sep [] r) eqn:S.
      * destruct r; simpl in S; [discriminate|].
        destruct (z =? sep); discriminate.
      * simpl in *. rewrite IH. reflexivity.
    + rewrite IH. simpl. rewrite <- app_assoc. reflexivity.
Qed.

Lemma split_unit_join : forall sep s, join [sep] (split_unit sep s) = s.
Proof. intros. unfold split_unit. rewrite split_unit_from_join. reflexivity. Qed.

Lemma split_unit_from_lines : forall sep s cur,
  ~ In sep cur ->
  Forall (fun line => ~ In sep line) (split_unit_from sep cur s) /\
  List.length (split_unit_from sep cur s) = S (count_occ Z.eq_dec s sep).
Proof.
  induction s as [|c r IH]; intros cur Hcur; simpl.
  - split; [|reflexivity]. constructor; [|constructor].
    intro H. apply Hcur, in_rev, H.
  - destruct (c =? sep) eqn:E.
    + apply Z.eqb_eq in E. subst c.
      destruct (IH [] (fun H => H)) as [F L].
      destruct (Z.eq_dec sep sep) as [_|N]; [|contradiction N; reflexivity].
      split; [|simpl; rewrite L; reflexivity].
      constructor; [|exact F]. intro H. apply Hcur, in_rev, H.
    + apply Z.eqb_neq in E.
      destruct (IH (c :: cur)) as [F L].
      { intros [H|H]; [apply E; exact H | exact (Hcur H)]. }
      destruct (Z.eq_dec c sep) as [N|_]; [contradiction|].
      split; assumption.
Qed.

(** Each line of [s.split(sep)] followed by the separator, all in a row, is
    [s] followed by the separator. *)
Lemma split_unit_from_concat : forall sep s cur,
  List.concat (map (fun line => line ++ [sep]) (split_unit_from sep cur s))
  = rev cur ++ s ++ [sep].
Proof.
  induction s as [|c r IH]; intro cur; simpl.
  - rewrite app_nil_r. reflexivity.
  - destruct (c =? sep) eqn:E.
    + apply Z.eqb_eq in E. subst c. simpl. rewrite IH. simpl.
      rewrite <- app_assoc. reflexivity.
    + rewrite IH. simpl. rewrite <- app_assoc. reflexivity.
Qed.

(** [l.join(sep)] for a non-empty [l], with one more separator in front, is
    every element preceded by the separator, all in a row. *)
Lemma join_sep_concat : forall sep l,
  l <> [] -> sep ++ join sep l = List.concat (map (fun x => sep ++ x) l).
Proof.
  induction l as [|x l IH]; intro H; [contradiction H; reflexivity|].
  destruct l as [|y l].
  - simpl. rewrite app_nil_r. reflexivity.
  - change (join sep (x :: y :: l)) with (x ++ sep ++ join sep (y :: l)).
    rewrite IH by discriminate. simpl. rewrite <- !app_assoc. reflexivity.
Qed.

(** ** Display-only methods *)

Lemma writelns_eq : forall ls t,
  writelns ls t =
  mkDOSTerminal (terminal t ++ map Writeln ls) (currentLine t)
    (commandHistory t) (historyIndex t) (calls t).
Proof.
  unfold writelns. induction ls as [|l ls IH]; intro t; simpl.
  - rewrite app_nil_r. destruct t; reflexivity.
  - rewrite IH. simpl. rewrite <- app_assoc. reflexivity.
Qed.

Lemma clearCurrentLine_eq : forall t,
  clearCurrentLine t =
  mkDOSTerminal (terminal t ++ repeat (Write erase) (List.length (currentLine t)))
    (currentLine t) (commandHistory t) (historyIndex t) (calls t).
Proof.
  intro t. unfold clearCurrentLine.
  induction (List.length (currentLine t)) as [|n IH]; simpl.
  - rewrite app_nil_r. destruct t; reflexivity.
  - rewrite IH. unfold write. simpl.
    rewrite <- app_assoc, <- repeat_cons. reflexivity.
Qed.

Lemma effect_only_id : effect_only (fun t => t).
Proof. intro t. simpl. rewrite !app_nil_r. destruct t; reflexivity. Qed.

Lemma effect_only_write : forall s, effect_only (write s).
Proof. intros s t. unfold write. simpl. rewrite app_nil_r. reflexivity. Qed.

Lemma effect_only_writeln : forall s, effect_only (writeln s).
Proof. intros s t. unfold writeln. simpl. rewrite app_nil_r. reflexivity. Qed.

Lemma effect_only_clear : effect_only clear.
Proof. intro t. unfold clear. simpl. rewrite app_nil_r. reflexivity. Qed.

Lemma effect_only_log_call : forall c, effect_only (log_call c).
Proof. intros c t. unfold log_call. simpl. rewrite app_nil_r. reflexivity. Qed.

Lemma effect_only_writelns : forall ls, effect_only (writelns ls).
Proof. intros ls t. rewrite !writelns_eq. simpl. rewrite app_nil_r. reflexivity. Qed.

Lemma effect_only_comp : forall f g,
  effect_only f -> effect_only g -> effect_only (fun t => g (f t)).
Proof.
  intros f g Hf Hg t.
  rewrite (Hg (f t)), (Hg (f new_terminal)), (Hf t). simpl.
  rewrite <- !app_assoc. reflexivity.
Qed.

Lemma effect_only_fold : forall (A : Type) (f : A -> DOSTerminal -> DOSTerminal) l,
  (forall x, effect_only (f x)) ->
  effect_only (fun t => fold_left (fun t' x => f x t') l t).
Proof.
  intros A f l Hf. induction l as [|x l IH]; simpl.
  - apply effect_only_id.
  - apply (effect_only_comp (f x) _ (Hf x) IH).
Qed.

Create HintDb console.

#[local] Hint Resolve effect_only_id effect_only_write effect_only_writeln
  effect_only_clear effect_only_log_call effect_only_writelns : console.

Lemma effect_only_printWelcome : effect_only printWelcome.
Proof. unfold printWelcome. auto with console. Qed.

Lemma effect_only_showHelp : effect_only showHelp.
Proof. unfold showHelp. auto with console. Qed.

Lemma effect_only_showAbout : effect_only showAbout.
Proof. unfold showAbout. auto with console. Qed.

Lemma effect_only_clearTerminal : effect_only clearTerminal.
Proof.
  apply (effect_only_comp clear printWelcome);
    [apply effect_only_clear | apply effect_only_printWelcome].
Qed.

Lemma effect_only_listEntries : effect_only listEntries.
Proof.
  unfold listEntries.
  apply (effect_only_comp _ (writelns _)); [|auto with console].
  apply (effect_only_comp (writelns _) _); [auto with console|].
  apply effect_only_fold. intro entry. auto with console.
Qed.

Lemma effect_only_readEntry : forall ident, effect_only (readEntry ident).
Proof.
  intro ident. unfold readEntry.
  destruct (find_post ident) as [entry|].
  - apply (effect_only_comp _ (writelns _)); [|auto with console].
    apply (effect_only_comp _ _); [|apply effect_only_fold; auto with console].
    apply (effect_only_comp (log_call _) (writelns _)); auto with console.
  - apply (effect_only_comp (log_call _) (writelns _)); auto with console.
Qed.

Lemma effect_only_executeCommand : forall command,
  effect_only (executeCommand command).
Proof.
  intro command. unfold executeCommand.
  destruct (split_ws command) as [|cmd args].
  - auto with console.
  - repeat match goal with
           | |- effect_only (fun t => if ?b then _ else _) => destruct b
           end.
    + apply (effect_only_comp (log_call _) showHelp);
        [auto with console | apply effect_only_showHelp].
    + apply (effect_only_comp (log_call _) listEntries);
        [auto with console | apply effect_only_listEntries].
    + destruct args as [|arg0 args].
      * apply (effect_only_comp (log_call _) (writelns _)); auto with console.
      * apply (effect_only_comp (log_call _) (readEntry arg0));
          [auto with console | apply effect_only_readEntry].
    + apply (effect_only_comp (log_call _) clearTerminal);
        [auto with console | apply effect_only_clearTerminal].
    + apply (effect_only_comp (log_call _) showAbout);
        [auto with console | apply effect_only_showAbout].
    + apply (effect_only_comp (log_call _) (writeln _)); auto with console.
    + auto with console.
    + apply (effect_only_comp (log_call _) (writelns _)); auto with console.
Qed.

Lemma executeCommand_eq : forall command t,
  executeCommand command t =
  mkDOSTerminal (terminal t ++ command_output command) (currentLine t)
    (commandHistory t) (historyIndex t) (calls t ++ command_calls command).
Proof. intros command t. apply effect_only_executeCommand. Qed.

(** The first call of a dispatch is the dispatch itself. *)
Lemma command_calls_head : forall command,
  exists more, command_calls command = CallExecute command :: more.
Proof.
  intro command. unfold command_calls, executeCommand.
  destruct (split_ws command) as [|cmd args]; [eexists; reflexivity|].
  repeat match goal with
         | |- context [if ?b then _ else _] => destruct b
         end;
    try (destruct args as [|arg0 args]);
    try (rewrite effect_only_showHelp);
    try (rewrite effect_only_listEntries);
    try (rewrite effect_only_readEntry);
    try (rewrite effect_only_clearTerminal);
    try (rewrite effect_only_showAbout);
    try (rewrite writelns_eq);
    simpl; eexists; reflexivity.
Qed.

(** ** The handlers, field by field *)

Lemma handleEnter_eq : forall t,
  let line := trim (currentLine t) in
  let command := toUpperCase line in
  handleEnter t =
  if truthy command then
    mkDOSTerminal
      (terminal t ++ [Writeln []] ++ command_output command ++ [Write prompt])
      [] (commandHistory t ++ [line]) (history_length t + 1)
      (calls t ++ command_calls command)
  else
    mkDOSTerminal (terminal t ++ [Writeln []; Write prompt]) []
      (commandHistory t) (historyIndex t) (calls t).
Proof.
  intro t. unfold handleEnter. simpl.
  destruct (truthy (toUpperCase (trim (currentLine t)))).
  - rewrite executeCommand_eq. unfold printPrompt, write, history_length. simpl.
    rewrite length_app. simpl. rewrite Nat2Z.inj_add. simpl.
    rewrite <- !app_assoc. reflexivity.
  - unfold printPrompt, write. simpl. rewrite <- app_assoc. reflexivity.
Qed.

Lemma history_at_Some : forall h i,
  0 <= i < Z.of_nat (List.length h) -> exists entry, history_at h i = Some entry.
Proof.
  intros h i Hi. unfold history_at.
  destruct (i <? 0) eqn:E; [apply Z.ltb_lt in E; lia|].
  destruct (nth_error h (Z.to_nat i)) as [entry|] eqn:N; [eauto|].
  apply nth_error_None in N. lia.
Qed.

Lemma history_at_in_bounds : forall h i entry,
  history_at h i = Some entry -> 0 <= i < Z.of_nat (List.length h).
Proof.
  intros h i entry. unfold history_at.
  destruct (i <? 0) eqn:E; [discriminate|]. intro N.
  apply Z.ltb_ge in E.
  assert (Z.to_nat i < List.length h)%nat
    by (apply nth_error_Some; congruence).
  lia.
Qed.

Lemma history_at_last : forall h l,
  history_at (h ++ [l]) (Z.of_nat (List.length h)) = Some l.
Proof.
  intros h l. unfold history_at.
  destruct (Z.of_nat (List.length h) <? 0) eqn:E; [apply Z.ltb_lt in E; lia|].
  rewrite Nat2Z.id, nth_error_app2, Nat.sub_diag by lia. reflexivity.
Qed.

Lemma handleArrowUp_eq : forall t,
  handleArrowUp t =
  if historyIndex t >? 0 then
    match history_at (commandHistory t) (historyIndex t - 1) with
    | Some entry =>
        Some (mkDOSTerminal
                (terminal t ++ repeat (Write erase) (List.length (currentLine t))
                   ++ [Write entry])
                entry (commandHistory t) (historyIndex t - 1) (calls t))
    | None => None
    end
  else Some t.
Proof.
  intro t. unfold handleArrowUp.
  destruct (historyIndex t >? 0); [|reflexivity].
  rewrite clearCurrentLine_eq. simpl.
  destruct (history_at (commandHistory t) (historyIndex t - 1)); [|reflexivity].
  unfold write. simpl. rewrite <- app_assoc. reflexivity.
Qed.

Lemma handleArrowDown_eq : forall t,
  handleArrowDown t =
  if historyIndex t <? history_length t - 1 then
    match history_at (commandHistory t) (historyIndex t + 1) with
    | Some entry =>
        Some (mkDOSTerminal
                (terminal t ++ repeat (Write erase) (List.length (currentLine t))
                   ++ [Write entry])
                entry (commandHistory t) (historyIndex t + 1) (calls t))
    | None => None
    end
  else
    Some (mkDOSTerminal
            (terminal t ++ repeat (Write erase) (List.length (currentLine t)))
            [] (commandHistory t) (history_length t) (calls t)).
Proof.
  intro t. unfold handleArrowDown.
  destruct (historyIndex t <? history_length t - 1).
  - rewrite clearCurrentLine_eq. simpl.
    destruct (history_at (commandHistory t) (historyIndex t + 1)); [|reflexivity].
    unfold write. simpl. rewrite <- app_assoc. reflexivity.
  - rewrite clearCurrentLine_eq. reflexivity.
Qed.

(** ** The cursor invariant *)

Lemma cursor_ok_init : cursor_ok init.
Proof. left. split; reflexivity. Qed.

Lemma cursor_ok_handleEnter : forall t, cursor_ok t -> cursor_ok (handleEnter t).
Proof.
  intros t H. rewrite handleEnter_eq. simpl.
  destruct (truthy (toUpperCase (trim (currentLine t)))).
  - right. unfold history_length. simpl. rewrite length_app. simpl. lia.
  - exact H.
Qed.

Lemma cursor_ok_handleBackspace : forall t,
  cursor_ok t -> cursor_ok (handleBackspace t).
Proof.
  intros t H. unfold handleBackspace.
  destruct (0 <? Z.of_nat (List.length (currentLine t))); exact H.
Qed.

Lemma cursor_ok_handleArrowUp : forall t t',
  cursor_ok t -> handleArrowUp t = Some t' -> cursor_ok t'.
Proof.
  intros t t' H. rewrite handleArrowUp_eq.
  destruct (historyIndex t >? 0) eqn:G.
  - destruct (history_at _ _) as [entry|] eqn:R; [|discriminate].
    intro E. injection E as <-. apply history_at_in_bounds in R.
    right. unfold history_length. simpl. lia.
  - intro E. injection E as <-. exact H.
Qed.

Lemma cursor_ok_handleArrowDown : forall t t',
  cursor_ok t -> handleArrowDown t = Some t' -> cursor_ok t'.
Proof.
  intros t t' H. rewrite handleArrowDown_eq.
  destruct (historyIndex t <? history_length t - 1) eqn:G.
  - destruct (history_at _ _) as [entry|] eqn:R; [|discriminate].
    intro E. injection E as <-. apply history_at_in_bounds in R.
    right. unfold history_length. simpl. lia.
  - intro E. injection E as <-.
    right. unfold history_length. simpl. lia.
Qed.

Lemma cursor_ok_onData : forall data t t',
  cursor_ok t -> onData data t = Some t' -> cursor_ok t'.
Proof.
  intros data t t' H. unfold onData.
  destruct data as [|code rest]; [intro E; injection E as <-; exact H|].
  destruct (code =? 13).
  { intro E. injection E as <-. apply cursor_ok_handleEnter, H. }
  destruct ((code =? 127) || (code =? 8)).
  { intro E. injection E as <-. apply cursor_ok_handleBackspace, H. }
  destruct (code =? 27).
  { simpl tl. destruct (str_eqb rest (js "[A")); [apply cursor_ok_handleArrowUp, H|].
    destruct (str_eqb rest (js "[B")); [apply cursor_ok_handleArrowDown, H|].
    intro E. injection E as <-. exact H. }
  destruct (str_geb (code :: rest) (js " ")); intro E; injection E as <-; exact H.
Qed.

Lemma run_reachable : forall events t t',
  reachable t -> run events t = Some t' -> reachable t'.
Proof.
  induction events as [|data events IH]; intros t t' Ht; simpl.
  - intro E. injection E as <-. exact Ht.
  - destruct (onData data t) as [t1|] eqn:E1; [|discriminate].
    apply IH. exact (reachable_event t data t1 Ht E1).
Qed.

Lemma reachable_cursor_ok : forall t, reachable t -> cursor_ok t.
Proof.
  induction 1 as [|t data t' _ IH E].
  - exact cursor_ok_init.
  - exact (cursor_ok_onData data t t' IH E).
Qed.

(** ** The branches of [onData] *)

Lemma onData_enter : forall rest t, onData (13 :: rest) t = Some (handleEnter t).
Proof. reflexivity. Qed.

Lemma onData_arrow_up : forall t, onData arrow_up t = handleArrowUp t.
Proof. reflexivity. Qed.

Lemma onData_arrow_down : forall t, onData arrow_down t = handleArrowDown t.
Proof. reflexivity. Qed.

Lemma onData_printable : forall data t,
  printable_event data = true -> control_event data = false ->
  onData data t =
  Some (mkDOSTerminal (terminal t ++ [Write data]) (currentLine t ++ data)
          (commandHistory t) (historyIndex t) (calls t)).
Proof.
  intros data t Hp Hc. destruct data as [|code rest]; [discriminate|].
  unfold onData. simpl in Hp, Hc.
  apply orb_false_iff in Hc. destruct Hc as [Hc H27].
  apply orb_false_iff in Hc. destruct Hc as [Hc H8].
  apply orb_false_iff in Hc. destruct Hc as [H13 H127].
  rewrite H13, H127, H8, H27, str_geb_space, Hp. reflexivity.
Qed.

(** Decides the comparisons of the [switch] between two literals. *)
Ltac eval_verb_tests :=
  repeat match goal with
         | |- context [str_eqb (js ?a) (js ?b)] =>
             let v := eval vm_compute in (str_eqb (js a) (js b)) in
             change (str_eqb (js a) (js b)) with v
         end;
  cbv beta iota; simpl orb; cbv beta iota.

(** ** Looking an entry up and rendering it *)

Lemma fold_writeln_map : forall (f : jsstring -> jsstring) lines t,
  fold_left (fun t' line => writeln (f line) t') lines t =
  writelns (map f lines) t.
Proof.
  unfold writelns. induction lines as [|l lines IH]; intro t; simpl.
  - reflexivity.
  - apply IH.
Qed.

Lemma find_post_present : forall ident,
  (exists p, In p posts /\ id p = ident) ->
  exists entry, find_post ident = Some entry /\ In entry posts /\ id entry = ident.
Proof.
  intros ident [p [Hin Hid]]. unfold find_post.
  destruct (find (fun q => str_eqb (id q) ident) posts) as [entry|] eqn:F.
  - apply find_some in F. destruct F as [Hin' Heq].
    apply str_eqb_eq in Heq. eauto.
  - apply (find_none _ _ F) in Hin. simpl in Hin.
    rewrite Hid, str_eqb_refl in Hin. discriminate.
Qed.

Lemma find_post_absent : forall ident,
  (forall p, In p posts -> id p <> ident) -> find_post ident = None.
Proof.
  intros ident H. unfold find_post.
  destruct (find (fun q => str_eqb (id q) ident) posts) as [entry|] eqn:F;
    [|reflexivity].
  apply find_some in F. destruct F as [Hin Heq].
  apply str_eqb_eq in Heq. destruct (H entry Hin Heq).
Qed.

Lemma readEntry_found : forall ident entry t,
  find_post ident = Some entry ->
  readEntry ident t =
  mkDOSTerminal (terminal t ++ map Writeln (entry_view entry)) (currentLine t)
    (commandHistory t) (historyIndex t) (calls t ++ [CallFind ident]).
Proof.
  intros ident entry t F. unfold readEntry. rewrite F.
  rewrite fold_writeln_map, !writelns_eq. unfold entry_view. simpl.
  rewrite <- !app_assoc, !map_app. reflexivity.
Qed.

Lemma readEntry_missing : forall ident t,
  find_post ident = None ->
  readEntry ident t =
  mkDOSTerminal
    (terminal t ++ [ Writeln (esc "[31mEntry not found: " ++ ident ++ esc "[0m");
                     Writeln (js "Use LIST to see available entries.") ])
    (currentLine t) (commandHistory t) (historyIndex t)
    (calls t ++ [CallFind ident]).
Proof.
  intros ident t F. unfold readEntry. rewrite F, writelns_eq. reflexivity.
Qed.

(** ** White space and [trim] *)

Lemma trimStart_nil : forall s, trimStart s = [] <-> forallb is_ws s = true.
Proof.
  induction s as [|c r IH]; simpl; [tauto|].
  destruct (is_ws c); simpl; [exact IH|]. split; discriminate.
Qed.

Lemma trimStart_all_ws : forall s,
  forallb is_ws (trimStart s) = true -> trimStart s = [].
Proof.
  induction s as [|c r IH]; simpl; [reflexivity|].
  destruct (is_ws c) eqn:E; [exact IH|].
  simpl. rewrite E. discriminate.
Qed.

(** The trimmed line is empty exactly when the line is empty or made of
    white space only. *)
Lemma trim_nil : forall s, trim s = [] <-> forallb is_ws s = true.
Proof.
  intro s. unfold trim, trimEnd. split.
  - intro H. apply trimStart_nil, trimStart_all_ws.
    assert (R : trimStart (rev (trimStart s)) = []).
    { destruct (trimStart (rev (trimStart s))) as [|x l]; [reflexivity|].
      simpl in H. destruct (rev l); discriminate. }
    apply trimStart_nil in R. rewrite forallb_forall in *.
    intros x Hx. apply R, in_rev. rewrite rev_involutive. exact Hx.
  - intro H. apply trimStart_nil in H. rewrite H. reflexivity.
Qed.

(** ** The claims *)

Lemma truthy_toUpperCase : forall s,
  truthy (toUpperCase s) = match s with [] => false | _ :: _ => true end.
Proof.
  intro s. destruct (toUpperCase s) as [|c u] eqn:E.
  - apply (proj1 (toUpperCase_empty s)) in E. subst s. reflexivity.
  - destruct s; [|reflexivity].
    assert (N : toUpperCase [] = [])
      by (apply (proj2 (toUpperCase_empty [])); reflexivity).
    congruence.
Qed.

(** C1, as the code has it: in every state the console can reach, the
    history cursor is either still at its initial value [-1], with an empty
    history, or within [0 .. length], [length] being the number of entries
    of the history.  The lower bound [0] of the specification fails in the
    initial state. *)
Theorem historyIndex_range : forall t,
  reachable t ->
  (historyIndex t = -1 /\ commandHistory t = [])
  \/ 0 <= historyIndex t <= history_length t.
Proof. intros t H. exact (reachable_cursor_ok t H). Qed.

(** C2: a submission event (first code unit 13) always clears the line
    buffer and writes the prompt last.  When the trimmed buffer is empty
    (the buffer is empty or white space only) the history, the cursor and
    the call log are untouched and the display only receives the line break
    and the prompt: no dispatch.  When the trimmed buffer is not empty it is
    appended as it is to the history, the cursor becomes the new length, and
    the dispatcher is called on its upper-cased form, its output landing
    between the line break and the prompt. *)
Theorem submission_event : forall data t,
  hd_error data = Some 13 ->
  exists t',
    onData data t = Some t' /\ currentLine t' = [] /\
    (trim (currentLine t) = [] ->
       commandHistory t' = commandHistory t /\
       historyIndex t' = historyIndex t /\
       calls t' = calls t /\
       terminal t' = terminal t ++ [Writeln []; Write prompt]) /\
    (trim (currentLine t) <> [] ->
       commandHistory t' = commandHistory t ++ [trim (currentLine t)] /\
       historyIndex t' = history_length t' /\
       (exists more,
          calls t' =
          calls t ++ CallExecute (toUpperCase (trim (currentLine t))) :: more) /\
       terminal t' =
       terminal t ++ [Writeln []]
         ++ command_output (toUpperCase (trim (currentLine t)))
         ++ [Write prompt]).
Proof.
  intros data t Hd. destruct data as [|code rest]; [discriminate|].
  injection Hd as ->. exists (handleEnter t). split; [reflexivity|].
  rewrite handleEnter_eq. simpl. rewrite truthy_toUpperCase.
  destruct (trim (currentLine t)) as [|c line] eqn:E; simpl.
  - split; [reflexivity|]. split; [auto|]. intro N. contradiction N. reflexivity.
  - split; [reflexivity|]. split; [discriminate|]. intros _.
    split; [reflexivity|]. split.
    + unfold history_length. simpl. rewrite length_app. simpl. lia.
    + split; [|reflexivity].
      destruct (command_calls_head (toUpperCase (c :: line))) as [more ->].
      exists more. reflexivity.
Qed.

(** C3, as the code has it: when the trimmed form of the line buffer is not
    empty, a submission followed by one history-previous event leaves the
    trimmed form of the submitted line in the buffer; this is the submitted
    line itself when it has no white space at either end. *)
Theorem submit_then_previous : forall t,
  trim (currentLine t) <> [] ->
  exists t',
    run [[13]; arrow_up] t = Some t' /\
    currentLine t' = trim (currentLine t).
Proof.
  intros t Hne. unfold run.
  rewrite onData_enter, onData_arrow_up, handleArrowUp_eq, handleEnter_eq.
  rewrite truthy_toUpperCase.
  destruct (trim (currentLine t)) as [|c line] eqn:E; [contradiction Hne; reflexivity|].
  simpl.
  assert (G : (history_length t + 1 >? 0) = true)
    by (apply Z.gtb_lt; unfold history_length; lia).
  rewrite G. replace (history_length t + 1 - 1) with (history_length t) by lia.
  unfold history_length. rewrite history_at_last.
  eexists. split; reflexivity.
Qed.

(** C4: a dispatched command whose verb is [READ].  With a first argument
    that is the identifier of some entry of the store, the display receives
    the detail view of the first such entry (the only one when identifiers
    are unique): between the rules, its title, its date, its tags and the
    lines of its body, each indented by two spaces.  The tag text is every
    tag preceded by [#], separated by single spaces: with a space in front
    it is the tags in order, each preceded by a space and [#].  The body
    lines are the body cut at its line feeds, nothing dropped and nothing
    moved: no line holds a line feed, and the lines in order, each followed
    by a line feed, are the body followed by a line feed.  With a first
    argument that no entry has, the display receives the not-found line and
    the hint to use LIST, nothing else.  Without argument it receives the
    two lines of the usage error and the store is not searched: the dispatch
    is the only call logged. *)
Theorem read_command : forall command t,
  (forall ident more,
     split_ws command = js "READ" :: ident :: more ->
     (exists p, In p posts /\ id p = ident) ->
     exists entry,
       find_post ident = Some entry /\ In entry posts /\ id entry = ident /\
       let tag_text :=
         join (js " ") (map (fun tg => js "#" ++ tg) (tags entry)) in
       let lines := split_unit 10 (content entry) in
       terminal (executeCommand command t) =
       terminal t ++
       map Writeln
         ([ [];
            double_rule;
            esc "[36m" ++ title entry ++ esc "[0m";
            double_rule;
            [];
            esc "[33mDate:" ++ esc "[0m " ++ date entry;
            esc "[33mTags:" ++ esc "[0m " ++ tag_text;
            [];
            single_rule;
            [] ]
          ++ map (fun line => js "  " ++ line) lines
          ++ [ []; single_rule; [] ]) /\
       (tags entry = [] -> tag_text = []) /\
       (tags entry <> [] ->
          js " " ++ tag_text
          = List.concat (map (fun tg => js " #" ++ tg) (tags entry))) /\
       List.concat (map (fun line => line ++ [10]) lines)
       = content entry ++ [10] /\
       Forall (fun line => ~ In 10 line) lines) /\
  (forall ident more,
     split_ws command = js "READ" :: ident :: more ->
     (forall p, In p posts -> id p <> ident) ->
     terminal (executeCommand command t) =
     terminal t ++ [ Writeln (esc "[31mEntry not found: " ++ ident ++ esc "[0m");
                     Writeln (js "Use LIST to see available entries.") ]) /\
  (split_ws command = [js "READ"] ->
     terminal (executeCommand command t) =
     terminal t ++ [ Writeln (esc "[31mError: Please specify an entry ID." ++ esc "[0m");
                     Writeln (js "Usage: READ <id>") ] /\
     calls (executeCommand command t) = calls t ++ [CallExecute command]).
Proof.
  intros command t. unfold executeCommand. split; [|split].
  - intros ident more S Hp. rewrite S.
    destruct (find_post_present ident Hp) as (entry & F & Hin & Hid).
    exists entry. repeat (split; [assumption|]).
    eval_verb_tests. cbv zeta.
    rewrite (readEntry_found ident entry _ F). split; [reflexivity|].
    split; [intros ->; reflexivity|]. split.
    + intro Hne. rewrite join_sep_concat, map_map.
      * reflexivity.
      * destruct (tags entry); [contradiction Hne; reflexivity | discriminate].
    + unfold split_unit. split.
      * rewrite split_unit_from_concat. reflexivity.
      * apply split_unit_from_lines. intros [].
  - intros ident more S Ha. rewrite S. eval_verb_tests.
    rewrite (readEntry_missing ident _ (find_post_absent ident Ha)). reflexivity.
  - intro S. rewrite S. eval_verb_tests. rewrite writelns_eq.
    split; reflexivity.
Qed.

(** C5, as the code has it: a dispatched command whose verb is none of the
    labels of the [switch] sends two lines to the display and nothing else:
    the bad-command error naming the verb, then the hint to type HELP.  The
    rest of the state is untouched and the store is not searched. *)
Theorem unknown_verb : forall command cmd args t,
  split_ws command = cmd :: args ->
  ~ In cmd known_verbs ->
  executeCommand command t =
  mkDOSTerminal
    (terminal t ++ [ Writeln (esc "[31mBad command or file name: " ++ cmd ++ esc "[0m");
                     Writeln (js "Type HELP for available commands.") ])
    (currentLine t) (commandHistory t) (historyIndex t)
    (calls t ++ [CallExecute command]).
Proof.
  intros command cmd args t S H. unfold executeCommand. rewrite S.
  assert (K : forall v, In v known_verbs -> str_eqb cmd v = false).
  { intros v Hv. apply str_eqb_neq. intro E. subst v. exact (H Hv). }
  rewrite (K (js "HELP")), (K (js "?")), (K (js "LIST")), (K (js "DIR")),
    (K (js "READ")), (K (js "CLEAR")), (K (js "CLS")), (K (js "ABOUT")),
    (K (js "EXIT")), (K (js "QUIT")), (K [])
    by (unfold known_verbs; simpl; tauto).
  simpl orb. cbv iota. rewrite writelns_eq. reflexivity.
Qed.

(** C6: recall is idempotent at both ends.  With the cursor at zero a
    history-previous event changes nothing at all, however often it is
    repeated.  With the cursor at [length] a first history-next event empties
    the line buffer and keeps the cursor and the history; every further one
    changes nothing, so the buffer stays empty. *)
Theorem recall_idempotent_at_boundaries : forall t,
  (historyIndex t = 0 ->
     forall n, run (repeat arrow_up n) t = Some t) /\
  (historyIndex t = history_length t ->
     exists t1,
       onData arrow_down t = Some t1 /\
       currentLine t1 = [] /\
       historyIndex t1 = historyIndex t /\
       commandHistory t1 = commandHistory t /\
       forall n, run (repeat arrow_down (S n)) t = Some t1).
Proof.
  intro t. split.
  - intros H0 n. induction n as [|n IH]; cbn [run repeat]; [reflexivity|].
    rewrite onData_arrow_up, handleArrowUp_eq, H0. exact IH.
  - intro Hl.
    assert (G : forall u, historyIndex u = history_length u ->
                (historyIndex u <? history_length u - 1) = false)
      by (intros u Hu; apply Z.ltb_ge; lia).
    eexists. rewrite onData_arrow_down, handleArrowDown_eq, (G t Hl).
    split; [reflexivity|]. cbn [currentLine historyIndex commandHistory].
    split; [reflexivity|]. split; [symmetry; exact Hl|]. split; [reflexivity|].
    intro n. cbn [run repeat].
    rewrite onData_arrow_down, handleArrowDown_eq, (G t Hl).
    induction n as [|n IH]; cbn [run repeat]; [reflexivity|].
    rewrite onData_arrow_down, handleArrowDown_eq. rewrite G by reflexivity.
    cbn [currentLine historyIndex commandHistory terminal calls List.length repeat].
    rewrite app_nil_r. exact IH.
Qed.

(** C7: a sequence of events that each start with a code unit at or above
    32 and none of which is a control event (13, 127, 8, 27) appends the
    events to the line buffer in order and sends the display one [write] per
    event, with the same text in the same order; history, cursor and call
    log are untouched.  From an empty buffer the buffer is the concatenation
    of the events. *)
Theorem printable_events_echo : forall events t,
  Forall (fun data => printable_event data = true /\ control_event data = false)
    events ->
  run events t =
  Some (mkDOSTerminal (terminal t ++ map Write events)
          (currentLine t ++ List.concat events)
          (commandHistory t) (historyIndex t) (calls t)).
Proof.
  induction events as [|data events IH]; intros t H; simpl.
  - rewrite !app_nil_r. destruct t; reflexivity.
  - inversion H as [|d l [Hp Hc] Hrest]; subst.
    rewrite (onData_printable data t Hp Hc), (IH _ Hrest). simpl.
    rewrite <- !app_assoc. reflexivity.
Qed.

(** C8: an escape event whose suffix is missing or is neither [[A] nor
    [[B] changes nothing: no call on the display, same line buffer, same
    history, same cursor. *)
Theorem malformed_escape_ignored : forall rest t,
  rest <> js "[A" -> rest <> js "[B" ->
  onData (27 :: rest) t = Some t.
Proof.
  intros rest t HA HB. unfold onData. simpl tl.
  rewrite (str_eqb_neq _ _ HA), (str_eqb_neq _ _ HB). reflexivity.
Qed.

(** C9: with an empty history and the cursor at its initial value [-1], a
    history-next event sets the cursor to 0, empties the line buffer and
    sends the display one erase sequence per code unit that was in the
    buffer. *)
Theorem arrow_down_before_first_command : forall t,
  commandHistory t = [] -> historyIndex t = -1 ->
  onData arrow_down t =
  Some (mkDOSTerminal
          (terminal t ++ repeat (Write erase) (List.length (currentLine t)))
          [] [] 0 (calls t)).
Proof.
  intros t Hh Hi. rewrite onData_arrow_down, handleArrowDown_eq.
  unfold history_length. rewrite Hh, Hi. reflexivity.
Qed.

(** C10: in a state the console can reach no event makes a handler read
    [commandHistory] out of bounds ([onData] never yields [None]): the index
    read by history-previous, [historyIndex - 1] under its guard, and the one
    read by history-next, [historyIndex + 1] under its guard, both lie in
    [0 .. length - 1]. *)
Theorem history_reads_in_bounds : forall t,
  reachable t ->
  (forall data, exists t', onData data t = Some t') /\
  (historyIndex t > 0 -> 0 <= historyIndex t - 1 < history_length t) /\
  (historyIndex t < history_length t - 1 ->
     0 <= historyIndex t + 1 < history_length t).
Proof.
  intros t Hr. pose proof (reachable_cursor_ok t Hr) as Hc.
  assert (Hb : -1 <= historyIndex t <= history_length t).
  { destruct Hc as [[Hi Hh]|Hc]; unfold history_length in *; [rewrite Hi|]; lia. }
  split; [|lia].
  intro data. unfold onData. destruct data as [|code rest]; [eauto|].
  destruct (code =? 13); [eauto|].
  destruct ((code =? 127) || (code =? 8)); [eauto|].
  destruct (code =? 27); [|destruct (str_geb _ _); eauto].
  simpl tl. destruct (str_eqb rest (js "[A")).
  - rewrite handleArrowUp_eq. destruct (historyIndex t >? 0) eqn:G; [|eauto].
    apply Z.gtb_lt in G.
    destruct (history_at_Some (commandHistory t) (historyIndex t - 1)) as [e ->];
      [unfold history_length in Hb; lia | eauto].
  - destruct (str_eqb rest (js "[B")); [|eauto].
    rewrite handleArrowDown_eq.
    destruct (historyIndex t <? history_length t - 1) eqn:G; [|eauto].
    apply Z.ltb_lt in G.
    destruct (history_at_Some (commandHistory t) (historyIndex t + 1)) as [e ->];
      [unfold history_length in *; lia | eauto].
Qed.

(** ** [trim], [split] and the tokens of a command *)

Lemma trimStart_decomp : forall s,
  exists pre, s = pre ++ trimStart s /\ forallb is_ws pre = true.
Proof.
  induction s as [|c r [pre [E W]]]; simpl.
  - exists []. split; reflexivity.
  - destruct (is_ws c) eqn:C.
    + exists (c :: pre). simpl. rewrite C, W. split; [congruence | reflexivity].
    + exists []. split; reflexivity.
Qed.

Lemma trimStart_head : forall s c r, trimStart s = c :: r -> is_ws c = false.
Proof.
  induction s as [|x s IH]; simpl; intros c r H; [discriminate|].
  destruct (is_ws x) eqn:X; [exact (IH c r H)|]. congruence.
Qed.

Lemma forallb_rev : forall (f : Z -> bool) l,
  forallb f l = true -> forallb f (rev l) = true.
Proof.
  intros f l H. rewrite forallb_forall in *. intros x Hx.
  apply H, in_rev. exact Hx.
Qed.

Lemma trim_decomp : forall s,
  exists pre post,
    s = pre ++ trim s ++ post /\
    forallb is_ws pre = true /\ forallb is_ws post = true /\
    (forall c r, trim s = c :: r -> is_ws c = false) /\
    (forall r c, trim s = r ++ [c] -> is_ws c = false).
Proof.
  intro s. unfold trim, trimEnd.
  destruct (trimStart_decomp s) as [pre [Es Wpre]].
  destruct (trimStart_decomp (rev (trimStart s))) as [pre' [Er Wpre']].
  exists pre, (rev pre'). split; [|split; [exact Wpre|split; [|split]]].
  - rewrite <- rev_app_distr, <- Er, rev_involutive. exact Es.
  - apply forallb_rev, Wpre'.
  - intros c r H.
    destruct (trimStart s) as [|x u] eqn:U.
    { simpl in H. discriminate. }
    assert (X : is_ws x = false) by exact (trimStart_head s x u U).
    simpl rev in Er, H.
    destruct (trimStart (rev u ++ [x])) as [|y w] eqn:W.
    { rewrite app_nil_r in Er. rewrite <- Er in Wpre'.
      rewrite forallb_app in Wpre'. simpl in Wpre'. rewrite X in Wpre'.
      rewrite andb_false_r in Wpre'. discriminate. }
    assert (L : exists w', y :: w = w' ++ [x]).
    { destruct (exists_last (l := y :: w)) as [w' [z Ez]]; [discriminate|].
      exists w'. rewrite Ez in Er. rewrite app_assoc in Er.
      apply app_inj_tail in Er. destruct Er as [_ ->]. exact Ez. }
    destruct L as [w' Ew]. rewrite Ew in H.
    rewrite rev_app_distr in H. simpl in H. congruence.
  - intros r c H.
    destruct (trimStart (rev (trimStart s))) as [|y w] eqn:W.
    { simpl in H. destruct r; discriminate. }
    assert (Y : is_ws y = false) by exact (trimStart_head _ y w W).
    simpl in H. apply app_inj_tail in H. destruct H as [_ <-]. exact Y.
Qed.

(** A string that neither starts nor ends with white space is its own
    trimmed form. *)
Lemma trim_fixed : forall s,
  (forall c r, s = c :: r -> is_ws c = false) ->
  (forall r c, s = r ++ [c] -> is_ws c = false) ->
  trim s = s.
Proof.
  intros s Hh Hl. unfold trim, trimEnd.
  assert (E : trimStart s = s).
  { destruct s as [|c r]; [reflexivity|]. simpl.
    rewrite (Hh c r eq_refl). reflexivity. }
  rewrite E.
  destruct (rev s) as [|y z] eqn:R.
  - simpl. rewrite <- (rev_involutive s), R. reflexivity.
  - simpl. assert (Y : is_ws y = false).
    { apply (Hl (rev z) y). rewrite <- (rev_involutive s), R. reflexivity. }
    rewrite Y, <- R. apply rev_involutive.
Qed.

Lemma trim_idempotent : forall s, trim (trim s) = trim s.
Proof.
  intro s. destruct (trim_decomp s) as (pre & post & _ & _ & _ & Hh & Hl).
  apply trim_fixed; assumption.
Qed.

(** X7: [trim] cuts a run of white space off each end and nothing else:
    the string is [pre ++ trim s ++ post] with [pre] and [post] made of white
    space only, what is left neither starts nor ends with white space, and
    trimming it again changes nothing. *)
Theorem trim_spec : forall s,
  (exists pre post,
     s = pre ++ trim s ++ post /\
     forallb is_ws pre = true /\ forallb is_ws post = true) /\
  (forall c r, trim s = c :: r -> is_ws c = false) /\
  (forall r c, trim s = r ++ [c] -> is_ws c = false) /\
  trim (trim s) = trim s.
Proof.
  intro s. destruct (trim_decomp s) as (pre & post & E & Wpre & Wpost & Hh & Hl).
  split; [exists pre, post; auto|]. split; [exact Hh|]. split; [exact Hl|].
  apply trim_idempotent.
Qed.


Lemma split_ws_from_concat : forall s in_ws cur,
  List.concat (split_ws_from in_ws cur s)
  = rev cur ++ filter (fun c => negb (is_ws c)) s.
Proof.
  induction s as [|c r IH]; intros in_ws cur; simpl.
  - reflexivity.
  - destruct (is_ws c); simpl.
    + destruct in_ws; simpl; rewrite IH; reflexivity.
    + rewrite IH. simpl. rewrite <- app_assoc. reflexivity.
Qed.

Lemma split_ws_from_clean : forall s in_ws cur,
  (forall c, In c cur -> is_ws c = false) ->
  Forall (fun tok => forall c, In c tok -> is_ws c = false)
    (split_ws_from in_ws cur s).
Proof.
  induction s as [|c r IH]; intros in_ws cur Hcur; simpl.
  - constructor; [|constructor]. intros x Hx. apply Hcur, in_rev, Hx.
  - destruct (is_ws c) eqn:C.
    + destruct in_ws; [apply IH, Hcur|].
      constructor; [|apply IH; intros x []].
      intros x Hx. apply Hcur, in_rev, Hx.
    + apply IH. intros x [<-|Hx]; [exact C | apply Hcur, Hx].
Qed.

(** X8: the tokens of [command.split(/\s+/)] hold the code units of the
    command that are not white space, all of them and in order, and no token
    holds a white-space code unit. *)
Theorem split_ws_tokens : forall s,
  List.concat (split_ws s) = filter (fun c => negb (is_ws c)) s /\
  Forall (fun tok => forall c, In c tok -> is_ws c = false) (split_ws s).
Proof.
  intro s. unfold split_ws. split.
  - rewrite split_ws_from_concat. reflexivity.
  - apply split_ws_from_clean. intros c [].
Qed.

Lemma split_ws_from_filled : forall s in_ws cur,
  (s = [] \/ forall r c, s = r ++ [c] -> is_ws c = false) ->
  (in_ws = true /\ cur = [] /\ s <> []) \/ (in_ws = false /\ cur <> []) ->
  Forall (fun tok => tok <> []) (split_ws_from in_ws cur s).
Proof.
  induction s as [|c r IH]; intros in_ws cur Hend Hst; simpl.
  - destruct Hst as [(_ & _ & N)|(_ & N)]; [contradiction N; reflexivity|].
    constructor; [|constructor]. intro E. apply N.
    rewrite <- (rev_involutive cur), E. reflexivity.
  - assert (Hr : is_ws c = false \/
                 (r <> [] /\ forall r' c', r = r' ++ [c'] -> is_ws c' = false)).
    { destruct Hend as [E|Hend]; [discriminate|].
      destruct (is_ws c) eqn:C; [right|left; reflexivity].
      destruct r as [|x r].
      - rewrite (Hend [] c eq_refl) in C. discriminate.
      - split; [discriminate|]. intros r' c' E.
        apply (Hend (c :: r') c'). rewrite E. reflexivity. }
    assert (Hend' : r = [] \/ forall r' c', r = r' ++ [c'] -> is_ws c' = false).
    { destruct Hend as [E|Hend]; [discriminate|].
      destruct r as [|x r]; [left; reflexivity|right].
      intros r' c' E. apply (Hend (c :: r') c'). rewrite E. reflexivity. }
    destruct (is_ws c) eqn:C.
    + destruct Hr as [Hr|[Hne Hr]]; [discriminate|].
      destruct Hst as [(-> & -> & _)|(-> & N)].
      * apply IH; [right; exact Hr | left; auto].
      * constructor.
        -- intro E. apply N. rewrite <- (rev_involutive cur), E. reflexivity.
        -- apply IH; [right; exact Hr | left; auto].
    + apply IH; [exact Hend' | right; split; [reflexivity | discriminate]].
Qed.

Lemma split_ws_filled : forall s,
  s <> [] -> trim s = s ->
  Forall (fun tok => tok <> []) (split_ws s).
Proof.
  intros s Hne Ht.
  destruct (trim_decomp s) as (pre & post & _ & _ & _ & Hh & Hl).
  rewrite Ht in Hh, Hl.
  destruct s as [|c r]; [contradiction Hne; reflexivity|].
  unfold split_ws. simpl. rewrite (Hh c r eq_refl).
  apply split_ws_from_filled.
  - destruct r as [|x r]; [left; reflexivity|right].
    intros r' c' E. apply (Hl (c :: r') c'). rewrite E. reflexivity.
  - right. split; [reflexivity | discriminate].
Qed.

(** X9: when a command is not empty and already trimmed, every token of
    [command.split(/\s+/)] is non-empty: the verb is not the empty string and
    no argument is, however many blanks separate them. *)
Theorem split_ws_trimmed_tokens : forall s,
  s <> [] -> trim s = s ->
  Forall (fun tok => tok <> []) (split_ws s).
Proof. exact split_ws_filled. Qed.

(** ** Editing the line *)

Lemma run_app : forall ev1 ev2 t,
  run (ev1 ++ ev2) t =
  match run ev1 t with Some t1 => run ev2 t1 | None => None end.
Proof.
  induction ev1 as [|d ev1 IH]; intros ev2 t; simpl; [reflexivity|].
  destruct (onData d t) as [t1|]; [apply IH | reflexivity].
Qed.

Lemma onData_erase : forall code rest t,
  code = 127 \/ code = 8 ->
  onData (code :: rest) t = Some (handleBackspace t).
Proof. intros code rest t [->| ->]; reflexivity. Qed.

(** X2: an erase event (first code unit 127 or 8) on an empty line buffer
    changes nothing and writes nothing; on a non-empty one it drops the last
    code unit of the buffer and writes one erase sequence, leaving history
    and cursor alone. *)
Theorem backspace_event : forall code rest t,
  code = 127 \/ code = 8 ->
  (currentLine t = [] -> onData (code :: rest) t = Some t) /\
  (currentLine t <> [] ->
     onData (code :: rest) t =
     Some (mkDOSTerminal (terminal t ++ [Write erase])
             (removelast (currentLine t)) (commandHistory t)
             (historyIndex t) (calls t))).
Proof.
  intros code rest t Hc. rewrite (onData_erase code rest t Hc).
  unfold handleBackspace. split; intro H.
  - rewrite H. reflexivity.
  - destruct (currentLine t) as [|c l]; [contradiction H; reflexivity|].
    reflexivity.
Qed.

Lemma run_backspaces : forall suf pre t,
  currentLine t = pre ++ suf ->
  run (repeat [127] (List.length suf)) t =
  Some (mkDOSTerminal
          (terminal t ++ repeat (Write erase) (List.length suf))
          pre (commandHistory t) (historyIndex t) (calls t)).
Proof.
  induction suf as [|c suf IH] using rev_ind; intros pre t E.
  - simpl. rewrite app_nil_r in *. rewrite <- E. destruct t; reflexivity.
  - rewrite length_app. simpl List.length. rewrite Nat.add_comm.
    cbn [Nat.add repeat run].
    rewrite (onData_erase 127 [] t (or_introl eq_refl)).
    unfold handleBackspace. rewrite E.
    destruct (pre ++ suf ++ [c]) as [|x l] eqn:N.
    { destruct pre; destruct suf; discriminate. }
    cbn [List.length]. rewrite <- N, app_assoc, removelast_last.
    replace (0 <? Z.of_nat (S (List.length l))) with true
      by (symmetry; apply Z.ltb_lt; lia).
    rewrite (IH pre); [|reflexivity].
    unfold write, set_currentLine. simpl. rewrite <- app_assoc. reflexivity.
Qed.

Lemma run_typed : forall keys t,
  Forall (fun c => 32 <= c /\ c <> 127) keys ->
  run (map (fun c => [c]) keys) t =
  Some (mkDOSTerminal (terminal t ++ map (fun c => Write [c]) keys)
          (currentLine t ++ keys) (commandHistory t) (historyIndex t) (calls t)).
Proof.
  induction keys as [|c keys IH]; intros t H; cbn [map run].
  - simpl. rewrite !app_nil_r. destruct t; reflexivity.
  - inversion H as [|x l [Hc1 Hc2] Hrest]; subst.
    rewrite onData_printable.
    + rewrite (IH _ Hrest). simpl. rewrite <- !app_assoc. reflexivity.
    + simpl. apply Z.leb_le. exact Hc1.
    + simpl. repeat (apply orb_false_iff; split); apply Z.eqb_neq; lia.
Qed.

(** X1: typing printable characters (code units at or above 32 other than
    127, one per event) and then pressing backspace once per character
    brings the line buffer back to what it was; the display has received one
    echo per character, then one erase sequence per character. *)
Theorem type_then_erase : forall keys t,
  Forall (fun c => 32 <= c /\ c <> 127) keys ->
  run (map (fun c => [c]) keys ++ repeat [127] (List.length keys)) t =
  Some (mkDOSTerminal
          (terminal t ++ map (fun c => Write [c]) keys
             ++ repeat (Write erase) (List.length keys))
          (currentLine t) (commandHistory t) (historyIndex t) (calls t)).
Proof.
  intros keys t H. rewrite run_app, (run_typed keys t H).
  rewrite (run_backspaces keys (currentLine t)); [|reflexivity].
  simpl. rewrite <- app_assoc. reflexivity.
Qed.

(** X3: erasing the whole line with backspace events, one per code unit
    of the buffer, has the effect of [clearCurrentLine] followed by emptying
    the buffer, which is how the recall handlers wipe the line. *)
Theorem backspace_all_is_clearCurrentLine : forall t,
  run (repeat [127] (List.length (currentLine t))) t =
  Some (set_currentLine [] (clearCurrentLine t)).
Proof.
  intro t. rewrite (run_backspaces (currentLine t) [] t); [|reflexivity].
  rewrite clearCurrentLine_eq. reflexivity.
Qed.

(** X4: an event that is neither a control event (first code unit 13, 127,
    8 or 27) nor printable (first code unit at or above 32) is ignored: the
    empty event, a tab, any other control code.  Nothing is written and
    nothing changes. *)
Theorem other_events_ignored : forall data t,
  control_event data = false -> printable_event data = false ->
  onData data t = Some t.
Proof.
  intros data t Hc Hp. destruct data as [|code rest]; [reflexivity|].
  unfold onData. simpl in Hc, Hp.
  apply orb_false_iff in Hc. destruct Hc as [Hc H27].
  apply orb_false_iff in Hc. destruct Hc as [Hc H8].
  apply orb_false_iff in Hc. destruct Hc as [H13 H127].
  rewrite H13, H127, H8, H27, str_geb_space, Hp. reflexivity.
Qed.

(** ** The history *)

Lemma onData_history : forall data t t',
  onData data t = Some t' ->
  commandHistory t' = commandHistory t
  \/ (truthy (toUpperCase (trim (currentLine t))) = true /\
      commandHistory t' = commandHistory t ++ [trim (currentLine t)]).
Proof.
  intros data t t'. unfold onData.
  destruct data as [|code rest]; [intro E; injection E as <-; auto|].
  destruct (code =? 13).
  { intro E. injection E as <-. rewrite handleEnter_eq. simpl.
    destruct (truthy (toUpperCase (trim (currentLine t)))); simpl; auto. }
  destruct ((code =? 127) || (code =? 8)).
  { intro E. injection E as <-. unfold handleBackspace.
    destruct (0 <? _); auto. }
  destruct (code =? 27).
  { simpl tl. destruct (str_eqb rest (js "[A")).
    - rewrite handleArrowUp_eq. destruct (historyIndex t >? 0);
        [destruct (history_at _ _)|]; intro E; try discriminate;
        injection E as <-; auto.
    - destruct (str_eqb rest (js "[B")).
      + rewrite handleArrowDown_eq.
        destruct (historyIndex t <? history_length t - 1);
          [destruct (history_at _ _)|]; intro E; try discriminate;
          injection E as <-; auto.
      + intro E. injection E as <-. auto. }
  destruct (str_geb (code :: rest) (js " ")); intro E; injection E as <-; auto.
Qed.

(** X5: the history is append-only.  Whatever the events, the history after
    them is the history before them followed by new entries, at most one
    per event. *)
Theorem history_append_only : forall events t t',
  run events t = Some t' ->
  exists more,
    commandHistory t' = commandHistory t ++ more /\
    (List.length more <= List.length events)%nat.
Proof.
  induction events as [|data events IH]; intros t t'; simpl.
  - intro E. injection E as <-. exists []. rewrite app_nil_r. auto.
  - destruct (onData data t) as [t1|] eqn:E1; [|discriminate].
    intro E. destruct (IH t1 t' E) as [more [Hm Hl]].
    destruct (onData_history data t t1 E1) as [H|[_ H]]; rewrite H in Hm.
    + exists more. split; [exact Hm | lia].
    + exists (trim (currentLine t) :: more). rewrite <- app_assoc in Hm.
      split; [exact Hm | simpl; lia].
Qed.

Lemma history_clean_onData : forall data t t',
  Forall (fun e => e <> [] /\ trim e = e) (commandHistory t) ->
  onData data t = Some t' ->
  Forall (fun e => e <> [] /\ trim e = e) (commandHistory t').
Proof.
  intros data t t' H E.
  destruct (onData_history data t t' E) as [->|[T ->]]; [exact H|].
  apply Forall_app. split; [exact H|]. constructor; [|constructor].
  split; [|apply trim_idempotent].
  rewrite truthy_toUpperCase in T.
  destruct (trim (currentLine t)); [discriminate T | discriminate].
Qed.

(** X6: in every state the console can reach, every entry of the history
    is a non-empty string without white space at either end: blank lines
    are never recorded and recorded lines are stored trimmed. *)
Theorem history_entries_trimmed : forall t,
  reachable t ->
  Forall (fun e => e <> [] /\ trim e = e) (commandHistory t).
Proof.
  induction 1 as [|t data t' _ IH E].
  - constructor.
  - exact (history_clean_onData data t t' IH E).
Qed.

(** ** Walking through the history *)

Lemma run_nil_inv : forall t t', run [] t = Some t' -> t' = t.
Proof. intros t t' E. injection E as <-. reflexivity. Qed.

(** X13: recall walks back through the history one entry per event.  With
    the cursor at [i], within the history, [k] history-previous events
    ([1 <= k <= i]) leave the cursor at [i - k] and the entry at that index
    in the line buffer; the history itself is not changed. *)
Theorem recall_walks_back : forall k t,
  (1 <= k)%nat ->
  Z.of_nat k <= historyIndex t <= history_length t ->
  exists t',
    run (repeat arrow_up k) t = Some t' /\
    historyIndex t' = historyIndex t - Z.of_nat k /\
    commandHistory t' = commandHistory t /\
    history_at (commandHistory t) (historyIndex t') = Some (currentLine t').
Proof.
  induction k as [|k IH]; intros t Hk Hi; [lia|].
  cbn [repeat run]. rewrite onData_arrow_up, handleArrowUp_eq.
  replace (historyIndex t >? 0) with true by (symmetry; apply Z.gtb_lt; lia).
  destruct (history_at_Some (commandHistory t) (historyIndex t - 1)) as [e He];
    [unfold history_length in Hi; lia|].
  rewrite He.
  destruct k as [|k].
  - eexists. split; [reflexivity|]. simpl.
    split; [lia|]. split; [reflexivity | exact He].
  - match goal with
    | |- context [run _ ?t1] => destruct (IH t1) as (t' & R & Hi' & Hh' & Hl')
    end; [lia | unfold history_length in *; simpl; lia |].
    exists t'. simpl in Hi', Hh', Hl'. split; [exact R|].
    split; [lia|]. split; [exact Hh' | exact Hl'].
Qed.

(** X14: history-previous followed by history-next.  From an entry that is
    neither the oldest nor past the newest ([0 < i < length]) the pair comes
    back to the same cursor with that entry in the buffer.  From past the
    newest entry ([i = length], history not empty) it comes back to
    [length] with an empty buffer: the line that was being typed is not
    restored. *)
Theorem previous_then_next : forall t,
  (0 < historyIndex t < history_length t ->
     exists t',
       run [arrow_up; arrow_down] t = Some t' /\
       historyIndex t' = historyIndex t /\
       history_at (commandHistory t) (historyIndex t) = Some (currentLine t')) /\
  (0 < historyIndex t -> historyIndex t = history_length t ->
     exists t',
       run [arrow_up; arrow_down] t = Some t' /\
       historyIndex t' = historyIndex t /\
       currentLine t' = []).
Proof.
  intro t. split.
  - intro Hi. cbn [run]. rewrite onData_arrow_up, handleArrowUp_eq.
    replace (historyIndex t >? 0) with true by (symmetry; apply Z.gtb_lt; lia).
    destruct (history_at_Some (commandHistory t) (historyIndex t - 1)) as [e He];
      [unfold history_length in Hi; lia|].
    rewrite He, onData_arrow_down, handleArrowDown_eq.
    cbn [historyIndex commandHistory currentLine terminal calls].
    unfold history_length at 1. cbn [commandHistory].
    fold (history_length t).
    replace (historyIndex t - 1 <? history_length t - 1) with true
      by (symmetry; apply Z.ltb_lt; lia).
    replace (historyIndex t - 1 + 1) with (historyIndex t) by lia.
    destruct (history_at_Some (commandHistory t) (historyIndex t)) as [e' He'];
      [unfold history_length in Hi; lia|].
    rewrite He'. eexists. split; [reflexivity|]. split; reflexivity.
  - intros Hpos Hi. cbn [run]. rewrite onData_arrow_up, handleArrowUp_eq.
    replace (historyIndex t >? 0) with true by (symmetry; apply Z.gtb_lt; lia).
    destruct (history_at_Some (commandHistory t) (historyIndex t - 1)) as [e He];
      [unfold history_length in Hi; lia|].
    rewrite He, onData_arrow_down, handleArrowDown_eq.
    cbn [historyIndex commandHistory currentLine terminal calls].
    unfold history_length at 1. cbn [commandHistory].
    fold (history_length t).
    replace (historyIndex t - 1 <? history_length t - 1) with false
      by (symmetry; apply Z.ltb_ge; lia).
    eexists. split; [reflexivity|]. split; [|reflexivity].
    unfold history_length. simpl. unfold history_length in Hi. lia.
Qed.

(** ** The dispatcher *)

(** X10: a dispatch only writes to the display.  It leaves the line
    buffer, the history and the cursor as they are, and what it writes
    depends on the command alone, not on the state of the console: two
    dispatches in a row write the output of the first followed by the output
    of the second, so a listing after a clear is the listing of a fresh
    console. *)
Theorem dispatch_only_writes : forall c1 c2 t,
  currentLine (executeCommand c1 t) = currentLine t /\
  commandHistory (executeCommand c1 t) = commandHistory t /\
  historyIndex (executeCommand c1 t) = historyIndex t /\
  terminal (executeCommand c1 t) = terminal t ++ command_output c1 /\
  terminal (executeCommand c2 (executeCommand c1 t))
  = terminal t ++ command_output c1 ++ command_output c2.
Proof.
  intros c1 c2 t.
  rewrite (effect_only_executeCommand c2 (executeCommand c1 t)).
  rewrite (effect_only_executeCommand c1 t). simpl.
  unfold command_output. rewrite <- app_assoc. repeat split; reflexivity.
Qed.

(** X12: a command string that is empty or starts with white space has the
    empty string as its verb, and the dispatcher does nothing for it: no
    output, not even for what follows the white space. *)
Theorem blank_verb_is_silent : forall command t,
  (command = [] \/ exists c r, command = c :: r /\ is_ws c = true) ->
  executeCommand command t = log_call (CallExecute command) t.
Proof.
  intros command t [->|(c & r & -> & W)]; unfold executeCommand.
  - reflexivity.
  - unfold split_ws. simpl split_ws_from. rewrite W. reflexivity.
Qed.

(** X15: submitting [CLEAR] or [CLS] brings the screen back to what the
    constructor showed: after the line break of the submission the display
    receives [clear()] and then what it received at construction, the banner
    and the prompt. *)
Theorem clear_restores_initial_screen : forall t,
  toUpperCase (trim (currentLine t)) = js "CLEAR"
  \/ toUpperCase (trim (currentLine t)) = js "CLS" ->
  terminal (handleEnter t) = terminal t ++ [Writeln []; Clear] ++ terminal init.
Proof.
  intros t H. rewrite handleEnter_eq. cbv zeta.
  destruct H as [-> | ->]; reflexivity.
Qed.

Lemma writelns_app : forall l1 l2 t,
  writelns (l1 ++ l2) t = writelns l2 (writelns l1 t).
Proof. intros. unfold writelns. apply fold_left_app. Qed.

Lemma fold_writelns_flat_map :
  forall (A : Type) (f : A -> list jsstring) l t,
    fold_left (fun t' x => writelns (f x) t') l t = writelns (flat_map f l) t.
Proof.
  induction l as [|x l IH]; intro t; simpl; [reflexivity|].
  rewrite IH, writelns_app. reflexivity.
Qed.

Lemma listEntries_eq : forall t,
  listEntries t =
  mkDOSTerminal
    (terminal t ++
     map Writeln
       ([ []; double_rule;
          esc "[33m                        ENTRIES" ++ esc "[0m";
          double_rule; [] ]
        ++ flat_map entry_summary posts
        ++ [ js "Total: " ++ number_toString (List.length posts)
               ++ js " entr(y/ies)";
             [] ]))
    (currentLine t) (commandHistory t) (historyIndex t) (calls t).
Proof.
  intro t.
  assert (E : forall t0,
    listEntries t0 =
    writelns
      [ js "Total: " ++ number_toString (List.length posts) ++ js " entr(y/ies)";
        [] ]
      (fold_left (fun t' entry => writelns (entry_summary entry) t') posts
         (writelns
            [ []; double_rule;
              esc "[33m                        ENTRIES" ++ esc "[0m";
              double_rule; [] ] t0))) by reflexivity.
  rewrite E, fold_writelns_flat_map, !writelns_eq. simpl terminal.
  rewrite <- !app_assoc, !map_app. reflexivity.
Qed.

Lemma flat_map_entry_summary_length : forall l,
  List.length (flat_map entry_summary l) = (3 * List.length l)%nat.
Proof.
  induction l as [|e l IH]; [reflexivity|].
  cbn [flat_map List.length]. unfold entry_summary at 1.
  cbn [app List.length]. rewrite IH. lia.
Qed.

Lemma nth_error_flat_map_entry_summary : forall l i entry tail j,
  nth_error l i = Some entry -> (j < 3)%nat ->
  nth_error (flat_map entry_summary l ++ tail) (3 * i + j)
  = nth_error (entry_summary entry) j.
Proof.
  induction l as [|e l IH]; intros i entry tail j Hi Hj.
  - destruct i; discriminate.
  - destruct i as [|i].
    + injection Hi as ->. cbn [flat_map]. unfold entry_summary at 1 3.
      destruct j as [|[|[|j]]]; [reflexivity | reflexivity | reflexivity | lia].
    + replace (3 * S i + j)%nat with (S (S (S (3 * i + j)))) by lia.
      cbn [flat_map]. unfold entry_summary at 1.
      cbn [app nth_error]. apply IH; assumption.
Qed.

(** X16: where [listEntries] puts what.  After the display's earlier
    calls come [7 + 3 * n] lines for a store of [n] entries.  The entry at
    index [i] of the store has the three lines from [5 + 3 * i] on: its
    identifier and title, then its date and tag text, then a blank line.
    The tag text is the tags in store order, each coloured and preceded by
    [#], separated by single spaces.  The total line, at [5 + 3 * n], shows
    [n]. *)
Theorem listing_places_entries : forall t,
  exists out,
    terminal (listEntries t) = terminal t ++ out /\
    List.length out = (7 + 3 * List.length posts)%nat /\
    nth_error out (5 + 3 * List.length posts)
    = Some (Writeln (js "Total: " ++ number_toString (List.length posts)
                       ++ js " entr(y/ies)")) /\
    forall i entry,
      nth_error posts i = Some entry ->
      exists tag_text,
        nth_error out (5 + 3 * i)
        = Some (Writeln (js "  " ++ (esc "[32m[" ++ id entry ++ js "]" ++ esc "[0m")
                           ++ js " " ++ (esc "[36m" ++ title entry ++ esc "[0m"))) /\
        nth_error out (5 + 3 * i + 1)
        = Some (Writeln (js "      Date: " ++ (esc "[33m" ++ date entry ++ esc "[0m")
                           ++ js "  Tags: " ++ tag_text)) /\
        nth_error out (5 + 3 * i + 2) = Some (Writeln []) /\
        (tags entry = [] -> tag_text = []) /\
        (tags entry <> [] ->
           js " " ++ tag_text
           = List.concat
               (map (fun tg => js " " ++ esc "[35m#" ++ tg ++ esc "[0m")
                  (tags entry))).
Proof.
  intro t. rewrite listEntries_eq. cbn [terminal].
  eexists. split; [reflexivity|]. split; [|split].
  - rewrite length_map. cbn [app List.length].
    rewrite length_app, flat_map_entry_summary_length. simpl. lia.
  - cbn [app Nat.add map nth_error].
    apply map_nth_error.
    rewrite nth_error_app2 by (rewrite flat_map_entry_summary_length; lia).
    rewrite flat_map_entry_summary_length, Nat.sub_diag. reflexivity.
  - intros i entry Hi.
    exists (join (js " ")
              (map (fun tg => esc "[35m#" ++ tg ++ esc "[0m") (tags entry))).
    assert (N : forall j, (j < 3)%nat ->
      nth_error
        (map Writeln
           ([ []; double_rule;
              esc "[33m                        ENTRIES" ++ esc "[0m";
              double_rule; [] ]
            ++ flat_map entry_summary posts
            ++ [ js "Total: " ++ number_toString (List.length posts)
                   ++ js " entr(y/ies)"; [] ]))
        (5 + (3 * i + j))
      = option_map Writeln (nth_error (entry_summary entry) j)).
    { intros j Hj. cbn [app Nat.add map nth_error].
      rewrite nth_error_map.
      rewrite (nth_error_flat_map_entry_summary posts i entry _ j Hi Hj).
      reflexivity. }
    split; [|split; [|split; [|split]]].
    + rewrite <- (Nat.add_0_r (3 * i)), (N 0%nat) by lia. reflexivity.
    + rewrite <- Nat.add_assoc, (N 1%nat) by lia. reflexivity.
    + rewrite <- Nat.add_assoc, (N 2%nat) by lia. reflexivity.
    + intros ->. reflexivity.
    + intro Hne. rewrite join_sep_concat, map_map.
      * reflexivity.
      * destruct (tags entry); [contradiction Hne; reflexivity | discriminate].
Qed.

(** X11: the aliases.  [?] is [HELP], [DIR] is [LIST], [CLS] is [CLEAR]
    and [QUIT] is [EXIT]: the two verbs of a pair write the same output, and
    these verbs ignore their arguments. *)
Theorem aliases_agree : forall c1 c2 args1 args2,
  (split_ws c1 = js "HELP" :: args1 -> split_ws c2 = js "?" :: args2 ->
     command_output c1 = command_output c2) /\
  (split_ws c1 = js "LIST" :: args1 -> split_ws c2 = js "DIR" :: args2 ->
     command_output c1 = command_output c2) /\
  (split_ws c1 = js "CLEAR" :: args1 -> split_ws c2 = js "CLS" :: args2 ->
     command_output c1 = command_output c2) /\
  (split_ws c1 = js "EXIT" :: args1 -> split_ws c2 = js "QUIT" :: args2 ->
     command_output c1 = command_output c2).
Proof.
  intros c1 c2 args1 args2. unfold command_output, executeCommand.
  repeat split; intros S1 S2; rewrite S1, S2; eval_verb_tests.
  - unfold showHelp. rewrite !writelns_eq. reflexivity.
  - rewrite !listEntries_eq. reflexivity.
  - unfold clearTerminal, printWelcome. rewrite !writelns_eq. reflexivity.
  - reflexivity.
Qed.


(** X17: the body lines that [readEntry] writes are the body itself:
    [content.split('\n')] joined again with line feeds is [content], no line
    holds a line feed, and there is one line more than there are line feeds,
    so an empty body is one empty line. *)
Theorem body_lines_round_trip : forall body,
  join [10] (split_unit 10 body) = body /\
  Forall (fun line => ~ In 10 line) (split_unit 10 body) /\
  List.length (split_unit 10 body) = S (count_occ Z.eq_dec body 10).
Proof.
  intro body. unfold split_unit. split.
  - rewrite split_unit_from_join. reflexivity.
  - apply split_unit_from_lines. intros [].
Qed.

Lemma split_ws_token_units : forall s tok c,
  In tok (split_ws s) -> In c tok -> In c s.
Proof.
  intros s tok c Ht Hc.
  assert (H : In c (List.concat (split_ws s)))
    by (apply in_concat; exists tok; split; assumption).
  unfold split_ws in H. rewrite split_ws_from_concat in H.
  apply filter_In in H. exact (proj1 H).
Qed.

(** The only lookup of a dispatch is the one of [READ] with an argument,
    for its first argument. *)
Lemma command_calls_finds : forall command ident,
  In (CallFind ident) (command_calls command) ->
  exists more, split_ws command = js "READ" :: ident :: more.
Proof.
  intros command ident. unfold command_calls, executeCommand.
  destruct (split_ws command) as [|cmd args].
  { simpl. intros [H|[]]. discriminate. }
  destruct (str_eqb cmd (js "HELP") || str_eqb cmd (js "?")).
  { unfold showHelp. rewrite writelns_eq. simpl. intros [H|[]]. discriminate. }
  destruct (str_eqb cmd (js "LIST") || str_eqb cmd (js "DIR")).
  { rewrite listEntries_eq. simpl. intros [H|[]]. discriminate. }
  destruct (str_eqb cmd (js "READ")) eqn:R.
  { apply str_eqb_eq in R. subst cmd. destruct args as [|arg0 args].
    - rewrite writelns_eq. simpl. intros [H|[]]. discriminate.
    - destruct (find_post arg0) as [entry|] eqn:E;
        [rewrite (readEntry_found arg0 entry _ E)
        |rewrite (readEntry_missing arg0 _ E)];
        simpl; (intros [H|[H|[]]]; [discriminate|]);
        injection H as ->; exists args; reflexivity. }
  destruct (str_eqb cmd (js "CLEAR") || str_eqb cmd (js "CLS")).
  { unfold clearTerminal, printWelcome. rewrite writelns_eq. simpl.
    intros [H|[]]. discriminate. }
  destruct (str_eqb cmd (js "ABOUT")).
  { unfold showAbout. rewrite writelns_eq. simpl. intros [H|[]]. discriminate. }
  destruct (str_eqb cmd (js "EXIT") || str_eqb cmd (js "QUIT")).
  { simpl. intros [H|[]]. discriminate. }
  destruct (str_eqb cmd []).
  { simpl. intros [H|[]]. discriminate. }
  rewrite writelns_eq. simpl. intros [H|[]]. discriminate.
Qed.

(** An event either leaves the call log alone or, for a submission, adds
    the calls of the dispatch of the upper-cased trimmed line. *)
Lemma onData_calls : forall data t t',
  onData data t = Some t' ->
  calls t' = calls t
  \/ calls t' = calls t ++ command_calls (toUpperCase (trim (currentLine t))).
Proof.
  intros data t t'. unfold onData.
  destruct data as [|code rest]; [intro E; injection E as <-; auto|].
  destruct (code =? 13).
  { intro E. injection E as <-. rewrite handleEnter_eq. simpl.
    destruct (truthy (toUpperCase (trim (currentLine t)))); simpl; auto. }
  destruct ((code =? 127) || (code =? 8)).
  { intro E. injection E as <-. unfold handleBackspace.
    destruct (0 <? _); auto. }
  destruct (code =? 27).
  { simpl tl. destruct (str_eqb rest (js "[A")).
    - rewrite handleArrowUp_eq. destruct (historyIndex t >? 0);
        [destruct (history_at _ _)|]; intro E; try discriminate;
        injection E as <-; auto.
    - destruct (str_eqb rest (js "[B")).
      + rewrite handleArrowDown_eq.
        destruct (historyIndex t <? history_length t - 1);
          [destruct (history_at _ _)|]; intro E; try discriminate;
          injection E as <-; auto.
      + intro E. injection E as <-. auto. }
  destruct (str_geb (code :: rest) (js " ")); intro E; injection E as <-; auto.
Qed.

(** X18: the console looks identifiers up in upper case.  [handleEnter]
    upper-cases the whole line before it dispatches it, so in every state
    the console can reach, every identifier that [readEntry] has looked up
    in the store ([CallFind] in the call log, written at the one call of
    [dosPosts.find]) holds no lower-case ASCII letter; an entry whose
    identifier holds one was therefore never the entry found.  The premise
    is the fact about [String.prototype.toUpperCase] that is used: its
    result holds no lower-case ASCII letter. *)
Theorem console_lookup_is_upper_cased :
  (forall s c, In c (toUpperCase s) -> is_lower c = false) ->
  forall t, reachable t ->
  forall ident, In (CallFind ident) (calls t) ->
    (forall c, In c ident -> is_lower c = false) /\
    (forall p, (exists c, In c (id p) /\ is_lower c = true) ->
               find_post ident <> Some p).
Proof.
  intros Hup t Hr.
  assert (Hi : forall ident, In (CallFind ident) (calls t) ->
                 forall c, In c ident -> is_lower c = false).
  { induction Hr as [|t data t' Hr IH E].
    - intros ident [].
    - intros ident Hin.
      destruct (onData_calls data t t' E) as [C|C]; rewrite C in Hin.
      + exact (IH ident Hin).
      + apply in_app_or in Hin. destruct Hin as [Hin|Hin]; [exact (IH ident Hin)|].
        destruct (command_calls_finds _ ident Hin) as [more S].
        intros c Hc. apply (Hup (trim (currentLine t))).
        apply (split_ws_token_units _ ident c); [|exact Hc].
        rewrite S. right. left. reflexivity. }
  intros ident Hin. split; [exact (Hi ident Hin)|].
  intros p [c [Hc Hl]] F. unfold find_post in F.
  apply find_some in F. destruct F as [_ F]. apply str_eqb_eq in F.
  rewrite F in Hc. rewrite (Hi ident Hin c Hc) in Hl. discriminate.
Qed.

(** X19: recall walks forward through the history one entry per event.
    With the cursor at [i], [k] history-next events that stay on entries
    ([1 <= k], [i + k <= length - 1]) leave the cursor at [i + k] and the
    entry at that index in the line buffer; the history is not changed. *)
Theorem recall_walks_forward : forall k t,
  (1 <= k)%nat ->
  -1 <= historyIndex t ->
  historyIndex t + Z.of_nat k <= history_length t - 1 ->
  exists t',
    run (repeat arrow_down k) t = Some t' /\
    historyIndex t' = historyIndex t + Z.of_nat k /\
    commandHistory t' = commandHistory t /\
    history_at (commandHistory t) (historyIndex t') = Some (currentLine t').
Proof.
  induction k as [|k IH]; intros t Hk Hlo Hhi; [lia|].
  cbn [repeat run]. rewrite onData_arrow_down, handleArrowDown_eq.
  replace (historyIndex t <? history_length t - 1) with true
    by (symmetry; apply Z.ltb_lt; lia).
  destruct (history_at_Some (commandHistory t) (historyIndex t + 1)) as [e He];
    [unfold history_length in Hhi; lia|].
  rewrite He.
  destruct k as [|k].
  - eexists. split; [reflexivity|]. simpl.
    split; [lia|]. split; [reflexivity | exact He].
  - match goal with
    | |- context [run _ ?t1] => destruct (IH t1) as (t' & R & Hi' & Hh' & Hl')
    end; [lia | simpl; lia | unfold history_length in *; simpl; lia |].
    exists t'. simpl in Hi', Hh', Hl'. split; [exact R|].
    split; [lia|]. split; [exact Hh' | exact Hl'].
Qed.

(** X20: the dispatcher answers every command that is not blank: for a
    command that is not empty and has no white space at either end, whatever
    its verb, at least one call reaches the display. *)
Theorem dispatch_never_silent : forall command,
  command <> [] -> trim command = command ->
  command_output command <> [].
Proof.
  intros command Hne Ht. pose proof (split_ws_filled command Hne Ht) as F.
  unfold command_output, executeCommand.
  destruct (split_ws command) as [|cmd args] eqn:S.
  - destruct (split_ws_from_nonempty command false [] S).
  - inversion F as [|x l Hcmd _]; subst.
    rewrite (str_eqb_neq cmd [] Hcmd).
    destruct (str_eqb cmd (js "HELP") || str_eqb cmd (js "?")).
    { unfold showHelp. rewrite writelns_eq. simpl. discriminate. }
    destruct (str_eqb cmd (js "LIST") || str_eqb cmd (js "DIR")).
    { rewrite listEntries_eq. simpl. discriminate. }
    destruct (str_eqb cmd (js "READ")).
    { destruct args as [|arg0 args].
      - rewrite writelns_eq. simpl. discriminate.
      - destruct (find_post arg0) as [entry|] eqn:E.
        + rewrite (readEntry_found arg0 entry _ E). simpl. discriminate.
        + rewrite (readEntry_missing arg0 _ E). simpl. discriminate. }
    destruct (str_eqb cmd (js "CLEAR") || str_eqb cmd (js "CLS")).
    { unfold clearTerminal, printWelcome. rewrite writelns_eq. simpl.
      discriminate. }
    destruct (str_eqb cmd (js "ABOUT")).
    { unfold showAbout. rewrite writelns_eq. simpl. discriminate. }
    destruct (str_eqb cmd (js "EXIT") || str_eqb cmd (js "QUIT")).
    { simpl. discriminate. }
    rewrite writelns_eq. simpl. discriminate.
Qed.

End Console.

(** ** The console of the source: the store [dosPosts], ASCII input *)

Lemma toUpperCase_ascii_empty : forall s, toUpperCase_ascii s = [] <-> s = [].
Proof.
  intro s. unfold toUpperCase_ascii. destruct s; simpl; split;
    intro H; try reflexivity; discriminate.
Qed.

(** C1, as the specification has it, fails: the constructor leaves the
    cursor at [-1], below the range [0 .. length]. *)
Lemma historyIndex_below_range_at_init :
  ~ (forall t, reachable dosPosts toUpperCase_ascii t ->
               0 <= historyIndex t <= history_length t).
Proof.
  intro H. specialize (H init (reachable_init dosPosts toUpperCase_ascii)).
  vm_compute in H. destruct H as [H _]. apply H. reflexivity.
Qed.

(** The cursor after typing [dir], submitting it and recalling it. *)
Lemma historyIndex_range_witness :
  exists t,
    run dosPosts toUpperCase_ascii [js "dir"; [13]; arrow_up] init = Some t /\
    ((historyIndex t = -1 /\ commandHistory t = [])
     \/ 0 <= historyIndex t <= history_length t).
Proof.
  eexists. split; [vm_compute; reflexivity|].
  apply (historyIndex_range dosPosts toUpperCase_ascii).
  apply (run_reachable dosPosts toUpperCase_ascii
           [js "dir"; [13]; arrow_up] init);
    [apply reachable_init | vm_compute; reflexivity].
Defined.

(** Submitting the buffer [ dir ] on the fresh console. *)
Lemma submission_event_witness :
  exists t',
    onData dosPosts toUpperCase_ascii [13] (set_currentLine (js " dir ") init)
    = Some t' /\
    currentLine t' = [] /\
    commandHistory t' = [js "dir"] /\
    historyIndex t' = 1.
Proof.
  destruct (submission_event dosPosts toUpperCase_ascii toUpperCase_ascii_empty
              [13] (set_currentLine (js " dir ") init) eq_refl)
    as (t' & E & Hl & _ & Hne).
  exists t'. split; [exact E|]. split; [exact Hl|].
  destruct Hne as (Hh & Hi & _); [vm_compute; discriminate|].
  split; [exact Hh|].
  rewrite Hi. unfold history_length. rewrite Hh. reflexivity.
Defined.

(** C3, as the specification has it, fails: the line [ dir], typed and
    submitted, comes back from the history as [dir]. *)
Lemma submit_then_previous_drops_blanks :
  exists t,
    run dosPosts toUpperCase_ascii
      [js " "; js "d"; js "i"; js "r"; [13]; arrow_up] init = Some t /\
    currentLine t = js "dir" /\
    currentLine t <> js " dir".
Proof.
  eexists. split; [vm_compute; reflexivity|].
  split; [reflexivity | vm_compute; discriminate].
Qed.

(** The buffer [ dir], submitted and recalled. *)
Lemma submit_then_previous_witness :
  exists t',
    run dosPosts toUpperCase_ascii [[13]; arrow_up]
      (set_currentLine (js " dir") init) = Some t' /\
    currentLine t' = js "dir".
Proof.
  destruct (submit_then_previous dosPosts toUpperCase_ascii
              toUpperCase_ascii_empty (set_currentLine (js " dir") init))
    as (t' & E & Hl); [vm_compute; discriminate|].
  exists t'. split; [exact E | exact Hl].
Defined.

(** [READ 2], [READ 9] and a bare [READ] on the store of the source: for
    [READ 2] the 22 lines that reach the display, 9 of them body lines. *)
Lemma read_command_witness :
  terminal (executeCommand dosPosts (js "READ 2") new_terminal)
  = map Writeln
      [ [];
        double_rule;
        esc "[36mBuilding a DOS Terminal" ++ esc "[0m";
        double_rule;
        [];
        esc "[33mDate:" ++ esc "[0m 2026-02-09";
        esc "[33mTags:" ++ esc "[0m #tech #retro #xterm";
        [];
        single_rule;
        [];
        js "  I've always been fascinated by retro computing and terminal interfaces.";
        js "  There's something beautiful about the simplicity and directness of command-line interfaces.";
        js "  ";
        js "  This experience is built using:";
        js "  - xterm.js for the terminal emulator";
        js "  - TypeScript for type safety";
        js "  - Astro for the framework";
        js "  ";
        js "  The DOS aesthetic brings back memories of simpler times when computing was more direct and less cluttered.";
        [];
        single_rule;
        [] ] /\
  terminal (executeCommand dosPosts (js "READ 9") new_terminal)
  = terminal new_terminal
      ++ [ Writeln (esc "[31mEntry not found: " ++ js "9" ++ esc "[0m");
           Writeln (js "Use LIST to see available entries.") ] /\
  calls (executeCommand dosPosts (js "READ") new_terminal)
  = calls new_terminal ++ [CallExecute (js "READ")].
Proof.
  split; [|split].
  - destruct (proj1 (read_command dosPosts (js "READ 2") new_terminal)
                (js "2") [] eq_refl) as (entry & F & _ & _ & Hout & _).
    + exists (nth 1 dosPosts (mkDOSPost [] [] [] [] [])).
      split; [right; left; reflexivity | reflexivity].
    + vm_compute in F. injection F as <-. rewrite Hout. reflexivity.
  - apply (proj1 (proj2 (read_command dosPosts (js "READ 9") new_terminal))
             (js "9") [] eq_refl).
    intros p [<-|[<-|[<-|[]]]]; vm_compute; discriminate.
  - apply (proj2 (proj2 (read_command dosPosts (js "READ") new_terminal))
             eq_refl).
Defined.

(** C5, as the specification has it, fails: for the verb [FOOBAR] the
    display receives the bad-command error and then a second line, the hint
    to type HELP. *)
Lemma foobar_renders_a_hint_too :
  command_output dosPosts (js "FOOBAR")
  = [ Writeln (esc "[31mBad command or file name: " ++ js "FOOBAR" ++ esc "[0m");
      Writeln (js "Type HELP for available commands.") ] /\
  command_output dosPosts (js "FOOBAR")
  <> [ Writeln (esc "[31mBad command or file name: " ++ js "FOOBAR" ++ esc "[0m") ].
Proof. split; [reflexivity | vm_compute; discriminate]. Qed.

(** The dispatch of [FOOBAR 1] on the fresh console. *)
Lemma unknown_verb_witness :
  executeCommand dosPosts (js "FOOBAR 1") init =
  mkDOSTerminal
    (terminal init
       ++ [ Writeln (esc "[31mBad command or file name: " ++ js "FOOBAR" ++ esc "[0m");
            Writeln (js "Type HELP for available commands.") ])
    [] [] (-1) [CallExecute (js "FOOBAR 1")].
Proof.
  apply (unknown_verb dosPosts (js "FOOBAR 1") (js "FOOBAR") [js "1"] init);
    [reflexivity|].
  vm_compute. intuition discriminate.
Defined.

(** Three arrow-up events at the oldest entry, three arrow-down events past
    the newest one. *)
Lemma recall_idempotent_at_boundaries_witness :
  run dosPosts toUpperCase_ascii (repeat arrow_up 3)
    (mkDOSTerminal [] (js "dir") [js "dir"; js "help"] 0 [])
  = Some (mkDOSTerminal [] (js "dir") [js "dir"; js "help"] 0 []) /\
  exists t1,
    run dosPosts toUpperCase_ascii (repeat arrow_down 3)
      (mkDOSTerminal [] (js "li") [js "dir"; js "help"] 2 []) = Some t1 /\
    currentLine t1 = [].
Proof.
  split.
  - apply (proj1 (recall_idempotent_at_boundaries dosPosts toUpperCase_ascii
                    (mkDOSTerminal [] (js "dir") [js "dir"; js "help"] 0 []))
             eq_refl 3%nat).
  - destruct (proj2 (recall_idempotent_at_boundaries dosPosts toUpperCase_ascii
                       (mkDOSTerminal [] (js "li") [js "dir"; js "help"] 2 []))
                eq_refl) as (t1 & _ & Hl & _ & _ & Hn).
    exists t1. split; [exact (Hn 2%nat) | exact Hl].
Defined.

(** Typing [d], [i], [r] on the fresh console. *)
Lemma printable_events_echo_witness :
  run dosPosts toUpperCase_ascii [js "d"; js "i"; js "r"] init =
  Some (mkDOSTerminal
          (terminal init ++ [Write (js "d"); Write (js "i"); Write (js "r")])
          (js "dir") [] (-1) []).
Proof.
  apply (printable_events_echo dosPosts toUpperCase_ascii
           [js "d"; js "i"; js "r"] init).
  repeat constructor.
Defined.

(** A bare escape, and the escape sequence of the right arrow. *)
Lemma malformed_escape_ignored_witness :
  onData dosPosts toUpperCase_ascii [27] init = Some init /\
  onData dosPosts toUpperCase_ascii (esc "[C") init = Some init.
Proof.
  split.
  - apply (malformed_escape_ignored dosPosts toUpperCase_ascii [] init);
      discriminate.
  - apply (malformed_escape_ignored dosPosts toUpperCase_ascii (js "[C") init);
      vm_compute; discriminate.
Defined.

(** Arrow-down on the fresh console with [ab] typed. *)
Lemma arrow_down_before_first_command_witness :
  onData dosPosts toUpperCase_ascii arrow_down (set_currentLine (js "ab") init) =
  Some (mkDOSTerminal (terminal init ++ [Write erase; Write erase]) [] [] 0 []).
Proof.
  apply (arrow_down_before_first_command dosPosts toUpperCase_ascii
           (set_currentLine (js "ab") init)); reflexivity.
Defined.

(** Arrow-up right after the first submission. *)
Lemma history_reads_in_bounds_witness :
  exists t,
    run dosPosts toUpperCase_ascii [js "dir"; [13]] init = Some t /\
    exists t', onData dosPosts toUpperCase_ascii arrow_up t = Some t'.
Proof.
  eexists. split; [vm_compute; reflexivity|].
  apply (history_reads_in_bounds dosPosts toUpperCase_ascii).
  apply (run_reachable dosPosts toUpperCase_ascii [js "dir"; [13]] init);
    [apply reachable_init | vm_compute; reflexivity].
Defined.

(** ** The further properties on the console of the source *)

Lemma toUpperCase_ascii_no_lower : forall s c,
  In c (toUpperCase_ascii s) -> is_lower c = false.
Proof.
  intros s c H. unfold toUpperCase_ascii in H.
  apply in_map_iff in H. destruct H as [x [<- _]]. unfold is_lower.
  destruct (97 <=? x) eqn:A; destruct (x <=? 122) eqn:B; simpl;
    try apply Z.leb_le in A; try apply Z.leb_gt in A;
    try apply Z.leb_le in B; try apply Z.leb_gt in B;
    apply andb_false_iff;
    ((left; apply Z.leb_gt; lia) || (right; apply Z.leb_gt; lia)).
Qed.

(** Typing [dir] and erasing it again on the fresh console. *)
Lemma type_then_erase_witness :
  run dosPosts toUpperCase_ascii
    [js "d"; js "i"; js "r"; [127]; [127]; [127]] init =
  Some (mkDOSTerminal
          (terminal init
             ++ [Write (js "d"); Write (js "i"); Write (js "r");
                 Write erase; Write erase; Write erase])
          [] [] (-1) []).
Proof.
  apply (type_then_erase dosPosts toUpperCase_ascii (js "dir") init).
  repeat constructor; vm_compute; discriminate.
Defined.

(** Backspace on the empty line, and on the line [di]. *)
Lemma backspace_event_witness :
  onData dosPosts toUpperCase_ascii [8] init = Some init /\
  onData dosPosts toUpperCase_ascii [127] (set_currentLine (js "di") init) =
  Some (mkDOSTerminal (terminal init ++ [Write erase]) (js "d") [] (-1) []).
Proof.
  split.
  - apply (proj1 (backspace_event dosPosts toUpperCase_ascii 8 [] init
                    (or_intror eq_refl))).
    reflexivity.
  - apply (proj2 (backspace_event dosPosts toUpperCase_ascii 127 []
                    (set_currentLine (js "di") init) (or_introl eq_refl))).
    discriminate.
Defined.

(** A tab, and an event without any code unit. *)
Lemma other_events_ignored_witness :
  onData dosPosts toUpperCase_ascii [9] init = Some init /\
  onData dosPosts toUpperCase_ascii [] init = Some init.
Proof.
  split.
  - apply (other_events_ignored dosPosts toUpperCase_ascii [9] init);
      reflexivity.
  - apply (other_events_ignored dosPosts toUpperCase_ascii [] init);
      reflexivity.
Defined.

(** Two submissions, one of them blank. *)
Lemma history_append_only_witness :
  exists t' more,
    run dosPosts toUpperCase_ascii [js "dir"; [13]; js " "; [13]] init = Some t' /\
    commandHistory t' = commandHistory init ++ more /\
    (List.length more <= 4)%nat.
Proof.
  eexists.
  assert (R : run dosPosts toUpperCase_ascii [js "dir"; [13]; js " "; [13]] init
              = Some (mkDOSTerminal
                        (terminal init ++
                         [Write (js "dir"); Writeln []]
                         ++ command_output dosPosts (js "DIR")
                         ++ [Write prompt; Write (js " "); Writeln [];
                             Write prompt])
                        [] [js "dir"] 1 [CallExecute (js "DIR")]))
    by (vm_compute; reflexivity).
  destruct (history_append_only dosPosts toUpperCase_ascii _ _ _ R)
    as [more [Hm Hl]].
  exists more. split; [exact R|]. split; [exact Hm | exact Hl].
Defined.

(** The history after [ dir ], a blank line and [help]. *)
Lemma history_entries_trimmed_witness :
  exists t,
    run dosPosts toUpperCase_ascii
      [js " dir "; [13]; js "  "; [13]; js "help"; [13]] init = Some t /\
    Forall (fun e => e <> [] /\ trim e = e) (commandHistory t).
Proof.
  eexists. split; [vm_compute; reflexivity|].
  apply (history_entries_trimmed dosPosts toUpperCase_ascii
           toUpperCase_ascii_empty).
  apply (run_reachable dosPosts toUpperCase_ascii
           [js " dir "; [13]; js "  "; [13]; js "help"; [13]] init);
    [apply reachable_init | vm_compute; reflexivity].
Defined.

(** The tokens of [READ   1  X]. *)
Lemma split_ws_trimmed_tokens_witness :
  Forall (fun tok => tok <> []) (split_ws (js "READ   1  X")).
Proof.
  apply (split_ws_trimmed_tokens (js "READ   1  X"));
    [discriminate | reflexivity].
Defined.

(** [HELP ME] against [?], [LIST] against [DIR 1], and the two other pairs. *)
Lemma aliases_agree_witness :
  command_output dosPosts (js "HELP ME") = command_output dosPosts (js "?") /\
  command_output dosPosts (js "LIST") = command_output dosPosts (js "DIR 1") /\
  command_output dosPosts (js "CLEAR") = command_output dosPosts (js "CLS") /\
  command_output dosPosts (js "EXIT") = command_output dosPosts (js "QUIT").
Proof.
  split; [|split; [|split]].
  - apply (proj1 (aliases_agree dosPosts (js "HELP ME") (js "?") [js "ME"] []));
      reflexivity.
  - apply (proj1 (proj2 (aliases_agree dosPosts (js "LIST") (js "DIR 1")
                           [] [js "1"]))); reflexivity.
  - apply (proj1 (proj2 (proj2 (aliases_agree dosPosts (js "CLEAR") (js "CLS")
                                   [] [])))); reflexivity.
  - apply (proj2 (proj2 (proj2 (aliases_agree dosPosts (js "EXIT") (js "QUIT")
                                   [] [])))); reflexivity.
Defined.

(** The command [ HELP], with a blank in front. *)
Lemma blank_verb_is_silent_witness :
  executeCommand dosPosts (js " HELP") init
  = log_call (CallExecute (js " HELP")) init.
Proof.
  apply (blank_verb_is_silent dosPosts (js " HELP") init).
  right. exists 32, (js "HELP"). split; reflexivity.
Defined.

(** Two arrow-up events after three submissions. *)
Lemma recall_walks_back_witness :
  exists t',
    run dosPosts toUpperCase_ascii (repeat arrow_up 2)
      (mkDOSTerminal [] [] [js "dir"; js "help"; js "about"] 3 []) = Some t' /\
    historyIndex t' = 1 /\ currentLine t' = js "help".
Proof.
  destruct (recall_walks_back dosPosts toUpperCase_ascii 2
              (mkDOSTerminal [] [] [js "dir"; js "help"; js "about"] 3 []))
    as (t' & R & Hi & _ & Hl).
  - apply le_S, le_n.
  - split; vm_compute; discriminate.
  - exists t'. split; [exact R|]. split; [exact Hi|].
    rewrite Hi in Hl. vm_compute in Hl. injection Hl as Hl.
    symmetry. exact Hl.
Defined.

(** Arrow-up then arrow-down from the middle entry, and from past the
    newest one with [li] typed. *)
Lemma previous_then_next_witness :
  (exists t',
     run dosPosts toUpperCase_ascii [arrow_up; arrow_down]
       (mkDOSTerminal [] (js "help") [js "dir"; js "help"; js "about"] 1 [])
     = Some t' /\
     historyIndex t' = 1) /\
  (exists t',
     run dosPosts toUpperCase_ascii [arrow_up; arrow_down]
       (mkDOSTerminal [] (js "li") [js "dir"; js "help"; js "about"] 3 [])
     = Some t' /\
     currentLine t' = []).
Proof.
  split.
  - destruct (proj1 (previous_then_next dosPosts toUpperCase_ascii
                       (mkDOSTerminal [] (js "help")
                          [js "dir"; js "help"; js "about"] 1 [])))
      as (t' & R & Hi & _).
    + split; reflexivity.
    + exists t'. split; [exact R | exact Hi].
  - destruct (proj2 (previous_then_next dosPosts toUpperCase_ascii
                       (mkDOSTerminal [] (js "li")
                          [js "dir"; js "help"; js "about"] 3 [])))
      as (t' & R & _ & Hl).
    + reflexivity.
    + reflexivity.
    + exists t'. split; [exact R | exact Hl].
Defined.

(** Submitting [ cls ] after some typing. *)
Lemma clear_restores_initial_screen_witness :
  terminal (handleEnter dosPosts toUpperCase_ascii
              (mkDOSTerminal [Write (js " cls ")] (js " cls ") [] (-1) []))
  = [Write (js " cls "); Writeln []; Clear] ++ terminal init.
Proof.
  apply (clear_restores_initial_screen dosPosts toUpperCase_ascii
           (mkDOSTerminal [Write (js " cls ")] (js " cls ") [] (-1) [])).
  right. reflexivity.
Defined.

(** The line [read a], typed and submitted on a console whose store has
    one entry, with the identifier [a]: the lookup is made for [A]. *)
Lemma console_lookup_is_upper_cased_witness :
  exists t,
    run [mkDOSPost (js "a") [] [] [] []] toUpperCase_ascii
      [js "r"; js "e"; js "a"; js "d"; js " "; js "a"; [13]] init = Some t /\
    calls t = [CallExecute (js "READ A"); CallFind (js "A")] /\
    find_post [mkDOSPost (js "a") [] [] [] []] (js "A")
    <> Some (mkDOSPost (js "a") [] [] [] []).
Proof.
  eexists. split; [vm_compute; reflexivity|]. split; [reflexivity|].
  refine (proj2 (console_lookup_is_upper_cased
                   [mkDOSPost (js "a") [] [] [] []] toUpperCase_ascii
                   toUpperCase_ascii_no_lower _ _ (js "A") _) _ _).
  - apply (run_reachable [mkDOSPost (js "a") [] [] [] []] toUpperCase_ascii
             [js "r"; js "e"; js "a"; js "d"; js " "; js "a"; [13]] init);
      [apply reachable_init | vm_compute; reflexivity].
  - right. left. reflexivity.
  - exists 97. split; [left; reflexivity | reflexivity].
Defined.

(** The listing of the store of the source: 16 lines, the second entry on
    the lines 8 to 10, the total on line 14. *)
Lemma listing_places_entries_witness :
  exists out,
    terminal (listEntries dosPosts new_terminal) = out /\
    List.length out = 16%nat /\
    nth_error out 8
    = Some (Writeln (js "  " ++ esc "[32m[2]" ++ esc "[0m "
                       ++ esc "[36mBuilding a DOS Terminal" ++ esc "[0m")) /\
    nth_error out 9
    = Some (Writeln (js "      Date: " ++ esc "[33m2026-02-09" ++ esc "[0m  Tags: "
                       ++ esc "[35m#tech" ++ esc "[0m " ++ esc "[35m#retro"
                       ++ esc "[0m " ++ esc "[35m#xterm" ++ esc "[0m")) /\
    nth_error out 10 = Some (Writeln []) /\
    nth_error out 14 = Some (Writeln (js "Total: 3 entr(y/ies)")).
Proof.
  destruct (listing_places_entries dosPosts new_terminal)
    as (out & Hout & Hlen & Htot & Hent).
  destruct (Hent 1%nat (nth 1 dosPosts (mkDOSPost [] [] [] [] [])) eq_refl)
    as (tag_text & H0 & H1 & H2 & _ & Htags).
  assert (T : tag_text = esc "[35m#tech" ++ esc "[0m " ++ esc "[35m#retro"
                           ++ esc "[0m " ++ esc "[35m#xterm" ++ esc "[0m").
  { specialize (Htags ltac:(discriminate)). vm_compute in Htags.
    injection Htags as ->. reflexivity. }
  subst tag_text.
  exists out. split; [exact Hout|]. split; [exact Hlen|].
  split; [exact H0|]. split; [exact H1|]. split; [exact H2 | exact Htot].
Defined.

(** Two arrow-down events from the oldest of three entries. *)
Lemma recall_walks_forward_witness :
  exists t',
    run dosPosts toUpperCase_ascii (repeat arrow_down 2)
      (mkDOSTerminal [] (js "dir") [js "dir"; js "help"; js "about"] 0 [])
    = Some t' /\
    historyIndex t' = 2 /\ currentLine t' = js "about".
Proof.
  destruct (recall_walks_forward dosPosts toUpperCase_ascii 2
              (mkDOSTerminal [] (js "dir") [js "dir"; js "help"; js "about"] 0 []))
    as (t' & R & Hi & _ & Hl).
  - apply le_S, le_n.
  - vm_compute. discriminate.
  - vm_compute. discriminate.
  - exists t'. split; [exact R|]. split; [exact Hi|].
    rewrite Hi in Hl. vm_compute in Hl. injection Hl as Hl.
    symmetry. exact Hl.
Defined.

(** The command [FOO BAR], which no verb matches. *)
Lemma dispatch_never_silent_witness :
  command_output dosPosts (js "FOO BAR") <> [].
Proof.
  apply (dispatch_never_silent dosPosts (js "FOO BAR"));
    [discriminate | reflexivity].
Defined.
